(** * To-do backend: storage backends and HTTP handlers of backend/main.go

    A shallow embedding of the Go backend: the [Task] record, the
    [StorageBackend] interface with its two implementations
    ([InMemoryStorage], a map from id to task, and [GCSStorage], one JSON
    object per task in a bucket), the permission-error classifier and the
    HTTP handlers, followed by the properties of the specification.

    Conventions.
    - A Go [error] is an [option string]: [None] is [nil], [Some msg] an
      error whose [Error()] text is [msg].  A pair [(v, error)] is a
      [result].
    - A method with a pointer receiver is a function from the receiver's
      state to a result and the new state.
    - [time.Time] is an integer (an instant); [uuid.New()] and [time.Now()]
      are inputs of the handler that calls them.
    - The body of a request is given as the outcome of
      [json.NewDecoder(r.Body).Decode(&req)]: [None] when decoding fails. *)

From Stdlib Require Import ZArith Ascii String Bool DecimalString.
From stdpp Require Import gmap strings list fin_maps.

Local Open Scope Z_scope.

(** ** Data model (main.go, lines 20-46) *)

Record Task := mkTask {
  ID : string;
  Text : string;
  Completed : bool;
  CreatedAt : Z
}.

Record TaskRequest := mkTaskRequest {
  Req_Text : string;
  Req_Completed : bool
}.

(** The two fields are pointers in the source: [None] is [nil], a field
    that the request body did not supply. *)
Record TaskUpdateRequest := mkTaskUpdateRequest {
  Upd_Text : option string;
  Upd_Completed : option bool
}.

Inductive result (A : Type) : Type :=
| Ok (a : A)
| Err (msg : string).
Arguments Ok {A} a.
Arguments Err {A} msg.

(** ** path.Base of the Go standard library, as used by [isPermissionError] *)

Definition isSlash (path : string) (i : nat) : bool :=
  match String.get i path with
  | Some c => Ascii.eqb c "/"%char
  | None => false
  end.

(** [for len(path) > 0 && path[len(path)-1] == '/' { path = path[0:len(path)-1] }],
    as the length that is left. *)
Fixpoint stripTrailing (n : nat) (path : string) : nat :=
  match n with
  | O => O
  | S k => if isSlash path k then stripTrailing k path else S k
  end.

(** [i := len(s) - 1; for i >= 0 && s[i] != '/' { i-- }; return i],
    called with [n = len(s)]. *)
Fixpoint lastSlash (n : nat) (s : string) : Z :=
  match n with
  | O => -1
  | S k => if isSlash s k then Z.of_nat k else lastSlash k s
  end.

Definition Base (path : string) : string :=
  if String.eqb path "" then "."
  else
    let path := String.substring 0 (stripTrailing (String.length path) path) path in
    let i := lastSlash (String.length path) path in
    let path :=
      if 0 <=? i
      then String.substring (Z.to_nat (i + 1)) (String.length path - Z.to_nat (i + 1)) path
      else path in
    if String.eqb path "" then "/" else path.

(** main.go, lines 499-504. *)
Definition isPermissionError (err : option string) : bool :=
  match err with
  | None => false
  | Some msg =>
      String.eqb (Base msg) "403"
      || String.eqb (Base msg) "forbidden"
      || String.eqb (Base msg) "permission denied"
  end.

(** ** The storage interface (main.go, lines 49-55)

    Every method may change the state of the backend that implements it. *)
Class StorageBackend (S : Type) := {
  ListTasks : S -> result (list Task) * S;
  CreateTask : Task -> S -> option string * S;
  UpdateTask : Task -> S -> option string * S;
  DeleteTask : string -> S -> option string * S;
  GetTask : string -> S -> result Task * S
}.

(** ** In-memory storage (main.go, lines 58-122)

    The mutex is not modelled: each method runs under the lock from its
    first to its last statement, so a method is one atomic step. *)
Module InMemoryStorage.

Record t := mk { tasks : gmap string Task }.

Definition New : t := {| tasks := ∅ |}.

(** Go iterates over a map in an unspecified order; the order of
    [map_to_list] stands for one of them, and the properties below use
    membership only. *)
Definition ListTasks (s : t) : result (list Task) * t :=
  (Ok (snd <$> map_to_list (tasks s)), s).

Definition CreateTask (task : Task) (s : t) : option string * t :=
  (None, {| tasks := <[ID task := task]> (tasks s) |}).

Definition UpdateTask (task : Task) (s : t) : option string * t :=
  match tasks s !! ID task with
  | None => (Some "task not found", s)
  | Some _ => (None, {| tasks := <[ID task := task]> (tasks s) |})
  end.

Definition DeleteTask (taskID : string) (s : t) : option string * t :=
  match tasks s !! taskID with
  | None => (Some "task not found", s)
  | Some _ => (None, {| tasks := delete taskID (tasks s) |})
  end.

Definition GetTask (taskID : string) (s : t) : result Task * t :=
  match tasks s !! taskID with
  | None => (Err "task not found", s)
  | Some task => (Ok task, s)
  end.

(** Every task is filed under its own id: true of the empty map, and
    kept by the three mutating methods. *)
Definition keyed (s : t) : Prop :=
  ∀ k task, tasks s !! k = Some task → ID task = k.

(** The states the running server can be in: the map starts empty and
    is changed by the three mutating methods only. *)
Inductive reachable : t → Prop :=
| reach_New : reachable New
| reach_Create task s : reachable s → reachable (CreateTask task s).2
| reach_Update task s : reachable s → reachable (UpdateTask task s).2
| reach_Delete taskID s : reachable s → reachable (DeleteTask taskID s).2.

End InMemoryStorage.

#[export] Instance InMemory_backend : StorageBackend InMemoryStorage.t := {
  ListTasks := InMemoryStorage.ListTasks;
  CreateTask := InMemoryStorage.CreateTask;
  UpdateTask := InMemoryStorage.UpdateTask;
  DeleteTask := InMemoryStorage.DeleteTask;
  GetTask := InMemoryStorage.GetTask
}.

(** ** Google Cloud Storage backend (main.go, lines 125-229)

    The storage client is a library outside this program.  Its bucket is
    modelled by what the program can observe of it: the objects by name,
    each seen through [encoding/json], and for every call of the client or
    of the codec whether it fails and with which message. *)
Module GCSStorage.

(** The content of one object: bytes that [json.Decoder.Decode] turns
    into [task], or bytes on which it fails with the message [cause].
    Writing [json.Marshal(task)] leaves content that decodes to [task]. *)
Inductive Blob :=
| Valid (task : Task)
| Corrupt (cause : string).

(** The calls that can fail for a reason outside the bucket's content
    (network, credentials, an unencodable value). *)
Inductive Op :=
| OpNext
| OpNewReader (name : string)
| OpMarshal (task : Task)
| OpWrite (name : string)
| OpClose (name : string)
| OpAttrs (name : string)
| OpDelete (name : string).

Record t := mk {
  objects : gmap string Blob;
  failing : Op -> option string;
  bucketName : string
}.

Definition New (bucketName : string) : t :=
  {| objects := ∅; failing := fun _ => None; bucketName := bucketName |}.

Definition with_objects (s : t) (o : gmap string Blob) : t :=
  {| objects := o; failing := failing s; bucketName := bucketName s |}.

(** [fmt.Sprintf("task-%s.json", taskID)] *)
Definition objectName (taskID : string) : string :=
  "task-" +:+ taskID +:+ ".json".

(** [Object(name).NewReader(ctx)]: fails when the call fails or the
    object does not exist. *)
Definition NewReader (name : string) (s : t) : result Blob :=
  match failing s (OpNewReader name) with
  | Some e => Err e
  | None =>
      match objects s !! name with
      | Some b => Ok b
      | None => Err "storage: object doesn't exist"
      end
  end.

(** [json.NewDecoder(reader).Decode(&task)] *)
Definition Decode (b : Blob) : result Task :=
  match b with
  | Valid task => Ok task
  | Corrupt cause => Err cause
  end.

(** [Object(name).Attrs(ctx)], of which the program uses the error only. *)
Definition Attrs (name : string) (s : t) : option string :=
  match failing s (OpAttrs name) with
  | Some e => Some e
  | None =>
      match objects s !! name with
      | Some _ => None
      | None => Some "storage: object doesn't exist"
      end
  end.

(** One turn of the loop of [ListTasks] for the object [name]: an object
    that cannot be opened or decoded is logged and skipped. *)
Definition listStep (s : t) (tasks : list Task) (entry : string * Blob) : list Task :=
  match NewReader (fst entry) s with
  | Err _ => tasks
  | Ok b =>
      match Decode b with
      | Err _ => tasks
      | Ok task => tasks ++ [task]
      end
  end.

(** The iterator yields the objects whose name has the prefix ["task-"];
    an error of [it.Next()] at any turn discards what was collected. *)
Definition ListTasks (s : t) : result (list Task) * t :=
  match failing s OpNext with
  | Some e => (Err ("error iterating objects: " +:+ e), s)
  | None =>
      (Ok (foldl (listStep s) []
             (filter (fun entry => String.prefix "task-" (fst entry) = true)
                     (map_to_list (objects s)))), s)
  end.

(** The object appears in the bucket when [writer.Close()] succeeds, and
    the bucket is as before when any step fails. *)
Definition CreateTask (task : Task) (s : t) : option string * t :=
  match failing s (OpMarshal task) with
  | Some e => (Some ("error marshaling task: " +:+ e), s)
  | None =>
      let objectName := objectName (ID task) in
      match failing s (OpWrite objectName) with
      | Some e => (Some ("error writing to GCS: " +:+ e), s)
      | None =>
          match failing s (OpClose objectName) with
          | Some e => (Some ("error closing writer: " +:+ e), s)
          | None => (None, with_objects s (<[objectName := Valid task]> (objects s)))
          end
      end
  end.

Definition UpdateTask (task : Task) (s : t) : option string * t :=
  CreateTask task s.

Definition DeleteTask (taskID : string) (s : t) : option string * t :=
  let objectName := objectName taskID in
  match Attrs objectName s with
  | Some _ => (Some "task not found", s)
  | None =>
      match failing s (OpDelete objectName) with
      | Some e => (Some ("error deleting object: " +:+ e), s)
      | None => (None, with_objects s (delete objectName (objects s)))
      end
  end.

Definition GetTask (taskID : string) (s : t) : result Task * t :=
  let objectName := objectName taskID in
  match NewReader objectName s with
  | Err _ => (Err "task not found", s)
  | Ok reader =>
      match Decode reader with
      | Err e => (Err ("error decoding task: " +:+ e), s)
      | Ok task => (Ok task, s)
      end
  end.

End GCSStorage.

#[export] Instance GCS_backend : StorageBackend GCSStorage.t := {
  ListTasks := GCSStorage.ListTasks;
  CreateTask := GCSStorage.CreateTask;
  UpdateTask := GCSStorage.UpdateTask;
  DeleteTask := GCSStorage.DeleteTask;
  GetTask := GCSStorage.GetTask
}.

(** ** A backend that records the calls made to it

    Wrapped around any backend, it keeps the list of the methods that were
    invoked, oldest first. *)
Inductive Call :=
| CallList
| CallCreate (task : Task)
| CallUpdate (task : Task)
| CallDelete (taskID : string)
| CallGet (taskID : string).

Definition Recording {S : Type} (B : StorageBackend S) : StorageBackend (S * list Call) := {|
  ListTasks := fun '(s, log) =>
    let '(r, s') := @ListTasks S B s in (r, (s', log ++ [CallList]));
  CreateTask := fun task '(s, log) =>
    let '(r, s') := @CreateTask S B task s in (r, (s', log ++ [CallCreate task]));
  UpdateTask := fun task '(s, log) =>
    let '(r, s') := @UpdateTask S B task s in (r, (s', log ++ [CallUpdate task]));
  DeleteTask := fun taskID '(s, log) =>
    let '(r, s') := @DeleteTask S B taskID s in (r, (s', log ++ [CallDelete taskID]));
  GetTask := fun taskID '(s, log) =>
    let '(r, s') := @GetTask S B taskID s in (r, (s', log ++ [CallGet taskID]))
|}.

(** ** Error classes

    The program has no error type of its own: the handlers tell the
    classes apart by the message, in the order of [deleteTask]
    (main.go, lines 480-488): a permission error first, then the exact
    message of an absent task, and anything else is internal. *)
Inductive ErrClass := NotFound | PermissionDenied | Internal.

Definition classify (msg : string) : ErrClass :=
  if isPermissionError (Some msg) then PermissionDenied
  else if String.eqb msg "task not found" then NotFound
  else Internal.

(** ** HTTP responses *)

Definition StatusOK : Z := 200.
Definition StatusCreated : Z := 201.
Definition StatusBadRequest : Z := 400.
Definition StatusForbidden : Z := 403.
Definition StatusNotFound : Z := 404.
Definition StatusInternalServerError : Z := 500.

Inductive Value :=
| VString (s : string)
| VBool (b : bool)
| VTime (instant : Z)
| VNil.

Inductive Data :=
| NoData
| OneTask (task : Task)
| Tasks (tasks : list Task)
| Fields (fields : list (string * Value)).

Inductive Payload :=
| ErrorText (msg : string)
| SuccessResponse (Message : string) (data : Data).

Record Response := mkResponse {
  Status : Z;
  Body : Payload
}.

(** [http.Error(w, msg, code)] *)
Definition httpError (msg : string) (code : Z) : Response :=
  {| Status := code; Body := ErrorText msg |}.

Definition respond (code : Z) (message : string) (data : Data) : Response :=
  {| Status := code; Body := SuccessResponse message data |}.

(** ** Handlers (main.go, lines 314-497)

    A handler takes the backend's state and returns the response and the
    state the backend is left in.  The global [storageBackend] is the
    instance [B]; the globals [useLocalStorage] and [bucketName] are the
    record [Config]. *)

Record Config := mkConfig {
  useLocalStorage : bool;
  bucketName : string
}.

(** main.go, lines 446-452: only the fields that are not [nil] are copied. *)
Definition applyUpdate (req : TaskUpdateRequest) (existingTask : Task) : Task :=
  let existingTask :=
    match Upd_Text req with
    | Some text => mkTask (ID existingTask) text (Completed existingTask) (CreatedAt existingTask)
    | None => existingTask
    end in
  match Upd_Completed req with
  | Some completed => mkTask (ID existingTask) (Text existingTask) completed (CreatedAt existingTask)
  | None => existingTask
  end.

(** The routes registered in [main] (lines 270-281), each with what its
    handler reads from the request and from the environment. *)
Inductive Request :=
| GET_tasks
| POST_tasks (body : option TaskRequest) (taskID : string) (now : Z)
| PUT_tasks (taskID : string) (body : option TaskUpdateRequest)
| DELETE_tasks (taskID : string)
| GET_health (now : Z)
| GET_bucket_info.

Section Handlers.
Context {S : Type} {B : StorageBackend S}.

Definition getTasks (s : S) : Response * S :=
  match ListTasks s with
  | (Err _, s) => (httpError "Internal server error" StatusInternalServerError, s)
  | (Ok tasks, s) => (respond StatusOK "Tasks retrieved successfully" (Tasks tasks), s)
  end.

(** [taskID] is the value of [uuid.New().String()] and [now] that of
    [time.Now()]; neither is looked at before the text is validated. *)
Definition createTask (body : option TaskRequest) (taskID : string) (now : Z)
    (s : S) : Response * S :=
  match body with
  | None => (httpError "Invalid request body" StatusBadRequest, s)
  | Some req =>
      if String.eqb (Req_Text req) ""
      then (httpError "Task text is required" StatusBadRequest, s)
      else
        let task := {| ID := taskID; Text := Req_Text req;
                       Completed := Req_Completed req; CreatedAt := now |} in
        match CreateTask task s with
        | (Some err, s) =>
            if isPermissionError (Some err)
            then (httpError "Forbidden: Insufficient permissions to access storage"
                            StatusForbidden, s)
            else (httpError "Internal server error" StatusInternalServerError, s)
        | (None, s) => (respond StatusCreated "Task created successfully" (OneTask task), s)
        end
  end.

Definition updateTask (taskID : string) (body : option TaskUpdateRequest)
    (s : S) : Response * S :=
  match body with
  | None => (httpError "Invalid request body" StatusBadRequest, s)
  | Some req =>
      match GetTask taskID s with
      | (Err err, s) =>
          if isPermissionError (Some err)
          then (httpError "Forbidden: Insufficient permissions to access storage"
                          StatusForbidden, s)
          else (httpError "Task not found" StatusNotFound, s)
      | (Ok existingTask, s) =>
          let existingTask := applyUpdate req existingTask in
          match UpdateTask existingTask s with
          | (Some err, s) =>
              if isPermissionError (Some err)
              then (httpError "Forbidden: Insufficient permissions to access storage"
                              StatusForbidden, s)
              else (httpError "Internal server error" StatusInternalServerError, s)
          | (None, s) =>
              (respond StatusOK "Task updated successfully" (OneTask existingTask), s)
          end
      end
  end.

Definition deleteTask (taskID : string) (s : S) : Response * S :=
  match DeleteTask taskID s with
  | (Some err, s) =>
      if isPermissionError (Some err)
      then (httpError "Forbidden: Insufficient permissions to access storage"
                      StatusForbidden, s)
      else if String.eqb err "task not found"
      then (httpError "Task not found" StatusNotFound, s)
      else (httpError "Internal server error" StatusInternalServerError, s)
  | (None, s) => (respond StatusOK "Task deleted successfully" NoData, s)
  end.

Definition healthCheck (cfg : Config) (now : Z) : Response :=
  let data := [("timestamp", VTime now); ("storage", VString "in-memory")] in
  let data :=
    if negb (useLocalStorage cfg)
    then [("timestamp", VTime now); ("storage", VString "google-cloud-storage");
          ("bucket", VString (bucketName cfg))]
    else data in
  respond StatusOK "Backend is healthy" (Fields data).

Definition getBucketInfo (cfg : Config) : Response :=
  let data :=
    if useLocalStorage cfg
    then [("storage", VString "in-memory"); ("bucket", VNil);
          ("gcsConsoleUrl", VNil); ("isLocal", VBool true)]
    else [("storage", VString "google-cloud-storage");
          ("bucket", VString (bucketName cfg));
          ("gcsConsoleUrl",
           VString ("https://console.cloud.google.com/storage/browser/" +:+ bucketName cfg));
          ("isLocal", VBool false)] in
  respond StatusOK "Bucket information retrieved successfully" (Fields data).

Definition serve (cfg : Config) (r : Request) (s : S) : Response * S :=
  match r with
  | GET_tasks => getTasks s
  | POST_tasks body taskID now => createTask body taskID now s
  | PUT_tasks taskID body => updateTask taskID body s
  | DELETE_tasks taskID => deleteTask taskID s
  | GET_health now => (healthCheck cfg now, s)
  | GET_bucket_info => (getBucketInfo cfg, s)
  end.

End Handlers.

(** ** Start-up (main.go, lines 231-265)

    [init] reads three environment variables and sets the globals, or
    stops the process with [log.Fatal]: here the message of the fatal
    error.  [storage.NewClient] is the library's: its outcome is an input,
    a client that gives the content of each bucket and the failures of
    its calls. *)

(** [os.Getenv(key)]: the value of the variable, empty when it is unset. *)
Definition Getenv (env : gmap string string) (key : string) : string :=
  default "" (env !! key).

Record Client := mkClient {
  bucketOf : string -> gmap string GCSStorage.Blob;
  failures : GCSStorage.Op -> option string
}.

(** main.go, lines 130-135. *)
Definition NewGCSStorage (client : Client) (bucketName : string) : GCSStorage.t :=
  {| GCSStorage.objects := bucketOf client bucketName;
     GCSStorage.failing := failures client;
     GCSStorage.bucketName := bucketName |}.

Inductive Backend :=
| LocalBackend (s : InMemoryStorage.t)
| RemoteBackend (s : GCSStorage.t).

Record Globals := mkGlobals {
  storageBackend : Backend;
  globalConfig : Config;
  port : string
}.

Definition init (env : gmap string string) (newClient : result Client) : result Globals :=
  let useLocalStorage := String.eqb (Getenv env "USE_LOCAL_STORAGE") "true" in
  let port := Getenv env "PORT" in
  let port := if String.eqb port "" then "8080" else port in
  if useLocalStorage
  then Ok {| storageBackend := LocalBackend InMemoryStorage.New;
             globalConfig := {| useLocalStorage := true; bucketName := "" |};
             port := port |}
  else
    let bucketName := Getenv env "BUCKET_NAME" in
    if String.eqb bucketName ""
    then Err "BUCKET_NAME environment variable is required when not using local storage"
    else
      match newClient with
      | Err err => Err ("Failed to create storage client: " +:+ err)
      | Ok client =>
          Ok {| storageBackend := RemoteBackend (NewGCSStorage client bucketName);
                globalConfig := {| useLocalStorage := false; bucketName := bucketName |};
                port := port |}
      end.

(** The request as the process serves it: by the backend that [init]
    selected. *)
Definition serveGlobals (g : Globals) (r : Request) : Response * Globals :=
  match storageBackend g with
  | LocalBackend s =>
      let '(resp, s) := serve (globalConfig g) r s in
      (resp, {| storageBackend := LocalBackend s; globalConfig := globalConfig g;
                port := port g |})
  | RemoteBackend s =>
      let '(resp, s) := serve (globalConfig g) r s in
      (resp, {| storageBackend := RemoteBackend s; globalConfig := globalConfig g;
                port := port g |})
  end.

(** ** Messages without a slash

    [path.Base] returns such a message as it is, so the classifier
    compares the whole message. *)
Definition noSlash (msg : string) : Prop :=
  ∀ i, isSlash msg i = false.

(** ** The task list of the frontend (components/TaskList.tsx, lines 43-53)

    The list of tasks the page shows is a state of the component; the two
    callbacks of a task item replace it by a function of the previous
    list.  A string of the page is a [string] here, compared with [===]
    by its content. *)
Module Frontend.

(** types/task.ts, lines 1-6: [createdAt] is the text the server sent. *)
Record Task := mkTask {
  id : string;
  text : string;
  completed : bool;
  createdAt : string
}.

(** [prevTasks.map(task => task.id === updatedTask.id ? updatedTask : task)] *)
Definition handleTaskUpdate (updatedTask : Task) (prevTasks : list Task) : list Task :=
  (fun task => if String.eqb (id task) (id updatedTask) then updatedTask else task)
    <$> prevTasks.

(** [prevTasks.filter(task => task.id !== taskId)] *)
Definition handleTaskDelete (taskId : string) (prevTasks : list Task) : list Task :=
  filter (fun task => id task ≠ taskId) prevTasks.

End Frontend.

(** ** The client of the page (services/api.ts)

    Each function of [api] sends one request and looks at the status of
    the response before it reads the body; what it throws then is a
    function of the status.  [rejection] is the message of the error
    thrown, [None] when the function goes on to read the body. *)
Module Api.

(** [response.ok]: the status is in the range 200-299. *)
Definition ok (status : Z) : bool := (200 <=? status) && (status <=? 299).

(** The template [`HTTP error! status: ${response.status}`]. *)
Definition httpErrorMessage (status : Z) : string :=
  "HTTP error! status: " +:+ NilZero.string_of_int (Z.to_int status).

(** [getTasks] and [createTask] (lines 9-14 and 32-37). *)
Definition rejectionOfList (status : Z) : option string :=
  if negb (ok status)
  then
    if status =? 403
    then Some "Forbidden: Insufficient permissions to access bucket"
    else Some (httpErrorMessage status)
  else None.

(** [updateTask] and [deleteTask] (lines 55-63 and 77-85). *)
Definition rejectionOfItem (status : Z) : option string :=
  if negb (ok status)
  then
    if status =? 403
    then Some "Forbidden: Insufficient permissions to access bucket"
    else if status =? 404
    then Some "Task not found"
    else Some (httpErrorMessage status)
  else None.

End Api.

(** The task as the page receives it: the fields of the JSON object by
    the tags of [Task] (main.go, lines 20-25), the time as the text
    [formatTime] that [encoding/json] writes for it. *)
Definition received (formatTime : Z -> string) (task : Task) : Frontend.Task :=
  {| Frontend.id := ID task;
     Frontend.text := Text task;
     Frontend.completed := Completed task;
     Frontend.createdAt := formatTime (CreatedAt task) |}.

(** ** Sample states

    A task, the in-memory store and the bucket that hold it and nothing
    else, and a bucket whose only object is not the JSON of a task. *)

Definition sample_task : Task :=
  {| ID := "a"; Text := "buy milk"; Completed := false; CreatedAt := 0 |}.

Definition sample_store : InMemoryStorage.t :=
  (InMemoryStorage.CreateTask sample_task InMemoryStorage.New).2.

Definition sample_bucket : GCSStorage.t :=
  (GCSStorage.CreateTask sample_task (GCSStorage.New "todo-bucket")).2.

Definition corrupt_bucket : GCSStorage.t :=
  GCSStorage.with_objects (GCSStorage.New "todo-bucket")
    {[ GCSStorage.objectName "a" := GCSStorage.Corrupt "unexpected EOF" ]}.

(** * Properties *)

(** ** The classifier *)

Example Base_of_a_path : Base "googleapi: Error 403: denied/forbidden" = "forbidden".
Proof. reflexivity. Qed.

Example Base_trailing_slashes : Base "a/b//" = "b".
Proof. reflexivity. Qed.

Example Base_only_slashes : Base "///" = "/".
Proof. reflexivity. Qed.

Example Base_empty : Base "" = ".".
Proof. reflexivity. Qed.

Lemma not_found_is_no_permission_error :
  isPermissionError (Some "task not found") = false.
Proof. reflexivity. Qed.

Lemma classify_not_found : classify "task not found" = NotFound.
Proof. reflexivity. Qed.

Lemma classify_NotFound_inv msg : classify msg = NotFound → msg = "task not found".
Proof.
  unfold classify. destruct (isPermissionError (Some msg)); [discriminate|].
  destruct (String.eqb_spec msg "task not found"); [done | discriminate].
Qed.

Lemma decode_error_not_NotFound cause :
  classify ("error decoding task: " +:+ cause) ≠ NotFound.
Proof. intros H%classify_NotFound_inv. discriminate. Qed.

(** ** The patch of an update *)

Lemma applyUpdate_ID req task : ID (applyUpdate req task) = ID task.
Proof. unfold applyUpdate. by destruct (Upd_Text req), (Upd_Completed req). Qed.

Lemma applyUpdate_CreatedAt req task :
  CreatedAt (applyUpdate req task) = CreatedAt task.
Proof. unfold applyUpdate. by destruct (Upd_Text req), (Upd_Completed req). Qed.

Lemma applyUpdate_Text req task :
  Text (applyUpdate req task) = default (Text task) (Upd_Text req).
Proof. unfold applyUpdate. by destruct (Upd_Text req), (Upd_Completed req). Qed.

Lemma applyUpdate_Completed req task :
  Completed (applyUpdate req task) = default (Completed task) (Upd_Completed req).
Proof. unfold applyUpdate. by destruct (Upd_Text req), (Upd_Completed req). Qed.

Lemma applyUpdate_idem req task :
  applyUpdate req (applyUpdate req task) = applyUpdate req task.
Proof. unfold applyUpdate. by destruct (Upd_Text req), (Upd_Completed req). Qed.

(** ** The in-memory map files every task under its id *)

Module InMemoryFacts.
Import InMemoryStorage.

Lemma keyed_New : keyed New.
Proof. intros k task. cbn. by rewrite lookup_empty. Qed.

Lemma keyed_insert task m :
  keyed (mk m) → keyed (mk (<[ID task := task]> m)).
Proof.
  intros Hk k task'. cbn. rewrite lookup_insert.
  case_decide; [naive_solver | apply Hk].
Qed.

Lemma keyed_CreateTask task s : keyed s → keyed (CreateTask task s).2.
Proof. destruct s. apply keyed_insert. Qed.

Lemma keyed_UpdateTask task s : keyed s → keyed (UpdateTask task s).2.
Proof.
  unfold UpdateTask. destruct s as [m]; cbn.
  destruct (m !! ID task); [apply keyed_insert | done].
Qed.

Lemma keyed_DeleteTask taskID s : keyed s → keyed (DeleteTask taskID s).2.
Proof.
  unfold DeleteTask. destruct s as [m]; cbn. intros Hk.
  destruct (m !! taskID); [|done].
  intros k task. cbn. rewrite lookup_delete.
  case_decide; [done | apply Hk].
Qed.

Lemma reachable_keyed s : reachable s → keyed s.
Proof.
  induction 1;
    eauto using keyed_New, keyed_CreateTask, keyed_UpdateTask, keyed_DeleteTask.
Qed.

End InMemoryFacts.

(** ** Create and read back *)

(** C5: in the in-memory backend, creating a task and then getting its id
    returns that very task, with the same id, text, completed flag and
    creation time, and the task is an element of the next listing. *)
Theorem create_then_get_and_list (s : InMemoryStorage.t) (task : Task) :
  ∃ s', InMemoryStorage.CreateTask task s = (None, s')
    ∧ InMemoryStorage.GetTask (ID task) s' = (Ok task, s')
    ∧ ∃ tasks, InMemoryStorage.ListTasks s' = (Ok tasks, s') ∧ task ∈ tasks.
Proof.
  eexists. split; [reflexivity|]. split.
  - unfold InMemoryStorage.GetTask. cbn. by rewrite lookup_insert_eq.
  - eexists. split; [reflexivity|]. cbn.
    apply list_elem_of_fmap. exists (ID task, task). split; [done|].
    apply elem_of_map_to_list. apply lookup_insert_eq.
Qed.

(** ** Delete *)

(** C6: in the in-memory backend, deleting an id that is present succeeds,
    and afterwards get, update and delete of that id fail with the message
    of an absent task, which is of the class NotFound (the handlers answer
    404), and no task of the listing bears the id.  The states are those in
    which every task is filed under its id, as all reachable ones are. *)
Theorem delete_then_not_found (s : InMemoryStorage.t) (taskID : string) :
  InMemoryStorage.keyed s →
  is_Some (InMemoryStorage.tasks s !! taskID) →
  ∃ s', InMemoryStorage.DeleteTask taskID s = (None, s')
    ∧ InMemoryStorage.GetTask taskID s' = (Err "task not found", s')
    ∧ (∀ task, ID task = taskID →
         InMemoryStorage.UpdateTask task s' = (Some "task not found", s'))
    ∧ InMemoryStorage.DeleteTask taskID s' = (Some "task not found", s')
    ∧ classify "task not found" = NotFound
    ∧ (∀ req, Status (updateTask taskID (Some req) s').1 = StatusNotFound)
    ∧ Status (deleteTask taskID s').1 = StatusNotFound
    ∧ ∃ tasks, InMemoryStorage.ListTasks s' = (Ok tasks, s')
        ∧ ∀ task, task ∈ tasks → ID task ≠ taskID.
Proof.
  intros Hk [task0 Hin]. destruct s as [m]; cbn in *.
  exists (InMemoryStorage.mk (delete taskID m)).
  assert (delete taskID m !! taskID = None) as Hgone by apply lookup_delete_eq.
  repeat split.
  - unfold InMemoryStorage.DeleteTask; cbn. by rewrite Hin.
  - unfold InMemoryStorage.GetTask; cbn. by rewrite Hgone.
  - intros task <-. unfold InMemoryStorage.UpdateTask; cbn. by rewrite Hgone.
  - unfold InMemoryStorage.DeleteTask; cbn. by rewrite Hgone.
  - intros req. unfold updateTask; cbn.
    unfold InMemoryStorage.GetTask; cbn. by rewrite Hgone.
  - unfold deleteTask; cbn.
    unfold InMemoryStorage.DeleteTask; cbn. by rewrite Hgone.
  - eexists. split; [reflexivity|]. cbn.
    intros task [[k task'] [-> Hel]]%list_elem_of_fmap. cbn.
    apply elem_of_map_to_list in Hel.
    intros Heq. rewrite lookup_delete in Hel. case_decide; [done|].
    apply Hk in Hel. cbn in Hel. congruence.
Qed.

Lemma delete_then_not_found_sample :
  ∃ s', InMemoryStorage.DeleteTask "a" sample_store = (None, s')
    ∧ InMemoryStorage.GetTask "a" s' = (Err "task not found", s')
    ∧ (∀ task, ID task = "a" →
         InMemoryStorage.UpdateTask task s' = (Some "task not found", s'))
    ∧ InMemoryStorage.DeleteTask "a" s' = (Some "task not found", s')
    ∧ classify "task not found" = NotFound
    ∧ (∀ req, Status (updateTask "a" (Some req) s').1 = StatusNotFound)
    ∧ Status (deleteTask "a" s').1 = StatusNotFound
    ∧ ∃ tasks, InMemoryStorage.ListTasks s' = (Ok tasks, s')
        ∧ ∀ task, task ∈ tasks → ID task ≠ "a".
Proof.
  apply (delete_then_not_found sample_store "a").
  - apply InMemoryFacts.keyed_CreateTask, InMemoryFacts.keyed_New.
  - exists sample_task. vm_compute. reflexivity.
Defined.

(** ** Validation of a create request *)

(** C4: a create request whose text is empty is answered with 400 and the
    message of the validation, whatever the backend; the backend is left
    in the state it was in and none of its methods has been called (the
    record of calls is as before). *)
Theorem createTask_empty_text {S : Type} (B : StorageBackend S)
    (req : TaskRequest) (taskID : string) (now : Z) (s : S) (calls : list Call) :
  Req_Text req = "" →
  createTask (B := Recording B) (Some req) taskID now (s, calls)
  = (httpError "Task text is required" StatusBadRequest, (s, calls)).
Proof. intros Htext. unfold createTask. by rewrite Htext. Qed.

Lemma createTask_empty_text_sample :
  createTask (B := Recording InMemory_backend)
    (Some {| Req_Text := ""; Req_Completed := true |}) "b" 7 (sample_store, [])
  = (httpError "Task text is required" StatusBadRequest, (sample_store, [])).
Proof. apply (createTask_empty_text InMemory_backend). reflexivity. Defined.

(** A request with a text does reach the backend: the record shows the
    one call. *)
Example createTask_with_text_calls_backend :
  (createTask (B := Recording InMemory_backend)
     (Some {| Req_Text := "walk"; Req_Completed := false |}) "b" 7
     (InMemoryStorage.New, [])).2.2
  = [CallCreate {| ID := "b"; Text := "walk"; Completed := false; CreatedAt := 7 |}].
Proof. reflexivity. Qed.

(** ** No permission error from the in-memory backend *)

Lemma InMemory_ListTasks_ok s :
  ∃ tasks, (InMemoryStorage.ListTasks s).1 = Ok tasks.
Proof. by eexists. Qed.

Lemma InMemory_UpdateTask_error task s :
  (InMemoryStorage.UpdateTask task s).1 = None
  ∨ (InMemoryStorage.UpdateTask task s).1 = Some "task not found".
Proof.
  unfold InMemoryStorage.UpdateTask.
  destruct (InMemoryStorage.tasks s !! ID task); [by left | by right].
Qed.

Lemma InMemory_DeleteTask_error taskID s :
  (InMemoryStorage.DeleteTask taskID s).1 = None
  ∨ (InMemoryStorage.DeleteTask taskID s).1 = Some "task not found".
Proof.
  unfold InMemoryStorage.DeleteTask.
  destruct (InMemoryStorage.tasks s !! taskID); [by left | by right].
Qed.

Lemma InMemory_GetTask_error taskID s :
  (∃ task, (InMemoryStorage.GetTask taskID s).1 = Ok task)
  ∨ (InMemoryStorage.GetTask taskID s).1 = Err "task not found".
Proof.
  unfold InMemoryStorage.GetTask.
  destruct (InMemoryStorage.tasks s !! taskID); [left; by eexists | by right].
Qed.

Lemma InMemory_serve_status cfg (r : Request) (s : InMemoryStorage.t) :
  Status (serve cfg r s).1 ∈
    [StatusOK; StatusCreated; StatusBadRequest; StatusNotFound;
     StatusInternalServerError].
Proof.
  destruct r as [|body taskID now|taskID body|taskID| |]; cbn.
  - set_solver.
  - unfold createTask. destruct body as [req|]; [|set_solver].
    destruct (String.eqb _ _); set_solver.
  - unfold updateTask. destruct body as [req|]; [|set_solver]. cbn.
    unfold InMemoryStorage.GetTask.
    destruct (InMemoryStorage.tasks s !! taskID) as [task|]; cbn; [|set_solver].
    unfold InMemoryStorage.UpdateTask.
    destruct (InMemoryStorage.tasks s !! _); cbn; set_solver.
  - unfold deleteTask; cbn. unfold InMemoryStorage.DeleteTask.
    destruct (InMemoryStorage.tasks s !! taskID); cbn; set_solver.
  - set_solver.
  - set_solver.
Qed.

(** C10: a method of the in-memory backend returns no error or the error
    "task not found"; the classifier of permission errors answers false on
    that message; and with the in-memory backend no route answers 403. *)
Theorem in_memory_never_forbidden :
  (∀ s, ∃ tasks, (InMemoryStorage.ListTasks s).1 = Ok tasks)
  ∧ (∀ task s, (InMemoryStorage.CreateTask task s).1 = None)
  ∧ (∀ task s, (InMemoryStorage.UpdateTask task s).1 = None
               ∨ (InMemoryStorage.UpdateTask task s).1 = Some "task not found")
  ∧ (∀ taskID s, (InMemoryStorage.DeleteTask taskID s).1 = None
                 ∨ (InMemoryStorage.DeleteTask taskID s).1 = Some "task not found")
  ∧ (∀ taskID s, (∃ task, (InMemoryStorage.GetTask taskID s).1 = Ok task)
                 ∨ (InMemoryStorage.GetTask taskID s).1 = Err "task not found")
  ∧ isPermissionError (Some "task not found") = false
  ∧ ∀ cfg (r : Request) (s : InMemoryStorage.t),
      Status (serve cfg r s).1 ≠ StatusForbidden.
Proof.
  split; [apply InMemory_ListTasks_ok|].
  split; [done|].
  split; [apply InMemory_UpdateTask_error|].
  split; [apply InMemory_DeleteTask_error|].
  split; [apply InMemory_GetTask_error|].
  split; [reflexivity|].
  intros cfg r s Hst.
  pose proof (InMemory_serve_status cfg r s) as Hin.
  rewrite Hst in Hin. rewrite !elem_of_cons, elem_of_nil in Hin.
  intuition discriminate.
Qed.

(** ** Update *)

Lemma applyUpdate_frame req existing :
  ID (applyUpdate req existing) = ID existing
  ∧ CreatedAt (applyUpdate req existing) = CreatedAt existing
  ∧ (Upd_Text req = None → Text (applyUpdate req existing) = Text existing)
  ∧ (Upd_Completed req = None →
       Completed (applyUpdate req existing) = Completed existing)
  ∧ (∀ text, Upd_Text req = Some text → Text (applyUpdate req existing) = text)
  ∧ (∀ completed, Upd_Completed req = Some completed →
       Completed (applyUpdate req existing) = completed).
Proof.
  rewrite applyUpdate_ID, applyUpdate_CreatedAt, applyUpdate_Text,
    applyUpdate_Completed.
  repeat split; try (by intros ->); by intros ? ->.
Qed.

(** The handler on a stored task of the in-memory backend. *)
Lemma InMemory_updateTask_ok (s : InMemoryStorage.t) taskID req existing :
  InMemoryStorage.keyed s →
  InMemoryStorage.tasks s !! taskID = Some existing →
  updateTask taskID (Some req) s
  = (respond StatusOK "Task updated successfully" (OneTask (applyUpdate req existing)),
     InMemoryStorage.mk (<[taskID := applyUpdate req existing]> (InMemoryStorage.tasks s))).
Proof.
  intros Hk Hget. pose proof (Hk _ _ Hget) as Hid.
  unfold updateTask; cbn. unfold InMemoryStorage.GetTask. rewrite Hget. cbn.
  unfold InMemoryStorage.UpdateTask. rewrite applyUpdate_ID, Hid, Hget. done.
Qed.

(** The handler on a stored task of the bucket, when no call fails. *)
Lemma GCS_updateTask_ok (s : GCSStorage.t) taskID req existing :
  (∀ op, GCSStorage.failing s op = None) →
  GCSStorage.objects s !! GCSStorage.objectName taskID = Some (GCSStorage.Valid existing) →
  updateTask taskID (Some req) s
  = (respond StatusOK "Task updated successfully" (OneTask (applyUpdate req existing)),
     GCSStorage.with_objects s
       (<[GCSStorage.objectName (ID existing) := GCSStorage.Valid (applyUpdate req existing)]>
          (GCSStorage.objects s))).
Proof.
  intros Hno Hget.
  unfold updateTask; cbn. unfold GCSStorage.GetTask, GCSStorage.NewReader.
  rewrite Hno, Hget. cbn.
  unfold GCSStorage.UpdateTask, GCSStorage.CreateTask.
  rewrite !Hno, applyUpdate_ID. done.
Qed.

Lemma InMemory_updateTask_twice (s : InMemoryStorage.t) taskID body :
  updateTask taskID body (updateTask taskID body s).2
  = ((updateTask taskID body s).1, (updateTask taskID body s).2).
Proof.
  destruct body as [req|]; [|done].
  destruct s as [m]. unfold updateTask; cbn.
  unfold InMemoryStorage.GetTask; cbn.
  destruct (m !! taskID) as [existing|] eqn:Hget; cbn.
  - unfold InMemoryStorage.UpdateTask; cbn. rewrite applyUpdate_ID.
    destruct (m !! ID existing) as [other|] eqn:Hupd; cbn.
    + rewrite lookup_insert. case_decide as Hid; cbn.
      * rewrite applyUpdate_idem, applyUpdate_ID, lookup_insert_eq; cbn.
        by rewrite insert_insert_eq.
      * rewrite Hget; cbn. rewrite applyUpdate_ID, lookup_insert_eq; cbn.
        by rewrite insert_insert_eq.
    + rewrite Hget; cbn. by rewrite applyUpdate_ID, Hupd.
  - by rewrite Hget.
Qed.

#[local] Arguments isPermissionError : simpl never.

(** Replays a run of the handler with the outcomes already met, kept in
    the context as equations. *)
Local Ltac replay :=
  repeat (progress (cbn;
    rewrite ?applyUpdate_ID, ?applyUpdate_idem;
    repeat match goal with
      | H : ?f _ = _ |- context [?f _] => rewrite H
      | H : _ !! _ = _ |- _ => rewrite H
      | |- context [if isPermissionError ?e then _ else _] =>
          destruct (isPermissionError e) eqn:?
      end)).

Lemma GCS_updateTask_twice (s : GCSStorage.t) taskID body :
  updateTask taskID body (updateTask taskID body s).2
  = ((updateTask taskID body s).1, (updateTask taskID body s).2).
Proof.
  destruct body as [req|]; [|done].
  destruct s as [objs fails bucket]. unfold updateTask; cbn.
  unfold GCSStorage.GetTask, GCSStorage.NewReader; cbn.
  destruct (fails (GCSStorage.OpNewReader (GCSStorage.objectName taskID)))
    as [e|] eqn:Hopen; cbn.
  { by replay. }
  destruct (objs !! GCSStorage.objectName taskID) as [[existing|cause]|] eqn:Hget;
    cbn; [|by replay..].
  unfold GCSStorage.UpdateTask, GCSStorage.CreateTask; cbn.
  rewrite applyUpdate_ID.
  destruct (fails (GCSStorage.OpMarshal (applyUpdate req existing)))
    as [e1|] eqn:Hmarshal; cbn; [by replay|].
  destruct (fails (GCSStorage.OpWrite (GCSStorage.objectName (ID existing))))
    as [e2|] eqn:Hwrite; cbn; [by replay|].
  destruct (fails (GCSStorage.OpClose (GCSStorage.objectName (ID existing))))
    as [e3|] eqn:Hclose; cbn; [by replay|].
  rewrite Hopen, lookup_insert. case_decide as Hname; replay.
  - unfold GCSStorage.with_objects; cbn. by rewrite insert_insert_eq.
  - unfold GCSStorage.with_objects; cbn. by rewrite insert_insert_eq.
Qed.

(** C7: applying an update request a second time returns the response of
    the first application and leaves the storage in the state the first
    application left it in, on the in-memory backend and on the bucket
    alike, whether or not the id is stored. *)
Theorem update_patch_twice :
  (∀ (s : InMemoryStorage.t) taskID req,
     updateTask taskID (Some req) (updateTask taskID (Some req) s).2
     = updateTask taskID (Some req) s)
  ∧ (∀ (s : GCSStorage.t) taskID req,
       updateTask taskID (Some req) (updateTask taskID (Some req) s).2
       = updateTask taskID (Some req) s).
Proof.
  split; intros s taskID req.
  - rewrite InMemory_updateTask_twice. by destruct (updateTask _ _ s).
  - rewrite GCS_updateTask_twice. by destruct (updateTask _ _ s).
Qed.

Example update_patch_twice_sample :
  (updateTask "a" (Some {| Upd_Text := Some "buy oat milk"; Upd_Completed := None |})
     sample_store).2
  = InMemoryStorage.mk
      {[ "a" := {| ID := "a"; Text := "buy oat milk"; Completed := false;
                   CreatedAt := 0 |} ]}.
Proof. vm_compute. reflexivity. Qed.

(** C8: an update of a stored task succeeds with the stored task in which
    only the supplied fields are replaced: the id and the creation time
    are those of the stored task, and so is each of text and completed
    that the request leaves out.  The result is what the response carries
    and what the storage holds afterwards (in the bucket, provided no call
    of the client fails). *)
Theorem update_keeps_unsupplied_fields :
  (∀ (s : InMemoryStorage.t) taskID req existing,
     InMemoryStorage.keyed s →
     InMemoryStorage.tasks s !! taskID = Some existing →
     ∃ updated,
       updateTask taskID (Some req) s
       = (respond StatusOK "Task updated successfully" (OneTask updated),
          InMemoryStorage.mk (<[taskID := updated]> (InMemoryStorage.tasks s)))
       ∧ ID updated = ID existing
       ∧ CreatedAt updated = CreatedAt existing
       ∧ (Upd_Text req = None → Text updated = Text existing)
       ∧ (Upd_Completed req = None → Completed updated = Completed existing)
       ∧ (∀ text, Upd_Text req = Some text → Text updated = text)
       ∧ (∀ completed, Upd_Completed req = Some completed →
            Completed updated = completed))
  ∧ (∀ (s : GCSStorage.t) taskID req existing,
       (∀ op, GCSStorage.failing s op = None) →
       GCSStorage.objects s !! GCSStorage.objectName taskID
         = Some (GCSStorage.Valid existing) →
       ∃ updated,
         updateTask taskID (Some req) s
         = (respond StatusOK "Task updated successfully" (OneTask updated),
            GCSStorage.with_objects s
              (<[GCSStorage.objectName (ID existing) := GCSStorage.Valid updated]>
                 (GCSStorage.objects s)))
         ∧ ID updated = ID existing
         ∧ CreatedAt updated = CreatedAt existing
         ∧ (Upd_Text req = None → Text updated = Text existing)
         ∧ (Upd_Completed req = None → Completed updated = Completed existing)
         ∧ (∀ text, Upd_Text req = Some text → Text updated = text)
         ∧ (∀ completed, Upd_Completed req = Some completed →
              Completed updated = completed)).
Proof.
  split; intros s taskID req existing H1 H2; exists (applyUpdate req existing).
  - split; [by apply InMemory_updateTask_ok | apply applyUpdate_frame].
  - split; [by apply GCS_updateTask_ok | apply applyUpdate_frame].
Qed.

Lemma update_keeps_unsupplied_fields_sample :
  (∃ updated,
     updateTask "a" (Some {| Upd_Text := None; Upd_Completed := Some true |}) sample_store
     = (respond StatusOK "Task updated successfully" (OneTask updated),
        InMemoryStorage.mk (<["a" := updated]> (InMemoryStorage.tasks sample_store)))
     ∧ ID updated = "a" ∧ CreatedAt updated = 0 ∧ Text updated = "buy milk")
  ∧ (∃ updated,
       updateTask "a" (Some {| Upd_Text := None; Upd_Completed := Some true |}) sample_bucket
       = (respond StatusOK "Task updated successfully" (OneTask updated),
          GCSStorage.with_objects sample_bucket
            (<[GCSStorage.objectName "a" := GCSStorage.Valid updated]>
               (GCSStorage.objects sample_bucket)))
       ∧ ID updated = "a" ∧ CreatedAt updated = 0 ∧ Text updated = "buy milk").
Proof.
  split.
  - destruct (proj1 update_keeps_unsupplied_fields sample_store "a"
                {| Upd_Text := None; Upd_Completed := Some true |} sample_task)
      as (updated & Hrun & Hid & Hat & Htext & _).
    + apply InMemoryFacts.keyed_CreateTask, InMemoryFacts.keyed_New.
    + vm_compute. reflexivity.
    + exists updated. repeat split; [exact Hrun | exact Hid | exact Hat |].
      apply Htext. reflexivity.
  - destruct (proj2 update_keeps_unsupplied_fields sample_bucket "a"
                {| Upd_Text := None; Upd_Completed := Some true |} sample_task)
      as (updated & Hrun & Hid & Hat & Htext & _).
    + intros op. reflexivity.
    + vm_compute. reflexivity.
    + exists updated. repeat split; [exact Hrun | exact Hid | exact Hat |].
      apply Htext. reflexivity.
Defined.

(** C9: an update that supplies the empty string as text is not refused:
    on a stored task it is answered with 200, and the task stored under
    the id afterwards has the empty text (in the bucket, provided no call
    of the client fails and the object holds the task of that id). *)
Theorem update_may_blank_text :
  (∀ (s : InMemoryStorage.t) taskID req existing,
     InMemoryStorage.keyed s →
     InMemoryStorage.tasks s !! taskID = Some existing →
     Upd_Text req = Some "" →
     ∃ updated s',
       updateTask taskID (Some req) s
       = (respond StatusOK "Task updated successfully" (OneTask updated), s')
       ∧ InMemoryStorage.tasks s' !! taskID = Some updated
       ∧ Text updated = "")
  ∧ (∀ (s : GCSStorage.t) taskID req existing,
       (∀ op, GCSStorage.failing s op = None) →
       GCSStorage.objects s !! GCSStorage.objectName taskID
         = Some (GCSStorage.Valid existing) →
       ID existing = taskID →
       Upd_Text req = Some "" →
       ∃ updated s',
         updateTask taskID (Some req) s
         = (respond StatusOK "Task updated successfully" (OneTask updated), s')
         ∧ GCSStorage.objects s' !! GCSStorage.objectName taskID
             = Some (GCSStorage.Valid updated)
         ∧ Text updated = "").
Proof.
  split.
  - intros s taskID req existing Hk Hget Htext.
    eexists _, _. split; [by apply InMemory_updateTask_ok|]. cbn.
    split; [apply lookup_insert_eq|].
    by rewrite applyUpdate_Text, Htext.
  - intros s taskID req existing Hno Hget Hid Htext.
    eexists _, _. split; [by apply GCS_updateTask_ok|]. cbn.
    split; [rewrite Hid; apply lookup_insert_eq|].
    by rewrite applyUpdate_Text, Htext.
Qed.

Lemma update_may_blank_text_sample :
  (∃ updated s',
     updateTask "a" (Some {| Upd_Text := Some ""; Upd_Completed := None |}) sample_store
     = (respond StatusOK "Task updated successfully" (OneTask updated), s')
     ∧ InMemoryStorage.tasks s' !! "a" = Some updated
     ∧ Text updated = "")
  ∧ (∃ updated s',
       updateTask "a" (Some {| Upd_Text := Some ""; Upd_Completed := None |}) sample_bucket
       = (respond StatusOK "Task updated successfully" (OneTask updated), s')
       ∧ GCSStorage.objects s' !! GCSStorage.objectName "a"
           = Some (GCSStorage.Valid updated)
       ∧ Text updated = "").
Proof.
  split.
  - apply (proj1 update_may_blank_text sample_store "a" _ sample_task).
    + apply InMemoryFacts.keyed_CreateTask, InMemoryFacts.keyed_New.
    + vm_compute. reflexivity.
    + reflexivity.
  - apply (proj2 update_may_blank_text sample_bucket "a" _ sample_task).
    + intros op. reflexivity.
    + vm_compute. reflexivity.
    + reflexivity.
    + reflexivity.
Defined.

(** ** Update of an id the storage does not hold *)

Lemma InMemory_UpdateTask_absent (s : InMemoryStorage.t) task :
  InMemoryStorage.tasks s !! ID task = None →
  InMemoryStorage.UpdateTask task s = (Some "task not found", s).
Proof. intros Hnone. unfold InMemoryStorage.UpdateTask. by rewrite Hnone. Qed.

(** The bucket's update returns the errors of the create it delegates to,
    none of which is the message of an absent task. *)
Lemma GCS_UpdateTask_never_not_found (s : GCSStorage.t) task :
  (GCSStorage.UpdateTask task s).1 ≠ Some "task not found".
Proof.
  unfold GCSStorage.UpdateTask, GCSStorage.CreateTask.
  repeat (destruct (GCSStorage.failing s _); [discriminate|]). discriminate.
Qed.

(** C1: on the bucket, the update of an id that has no object does not
    fail: it returns no error and creates the object, where the in-memory
    backend returns the error "task not found" for the same call.  No
    state of the bucket makes its update return that error. *)
Theorem GCS_UpdateTask_absent_id_succeeds :
  GCSStorage.objects (GCSStorage.New "todo-bucket") !! GCSStorage.objectName (ID sample_task)
    = None
  ∧ GCSStorage.UpdateTask sample_task (GCSStorage.New "todo-bucket") = (None, sample_bucket)
  ∧ GCSStorage.objects sample_bucket !! GCSStorage.objectName (ID sample_task)
      = Some (GCSStorage.Valid sample_task)
  ∧ InMemoryStorage.UpdateTask sample_task InMemoryStorage.New
      = (Some "task not found", InMemoryStorage.New)
  ∧ ∀ (s : GCSStorage.t) task,
      (GCSStorage.UpdateTask task s).1 ≠ Some "task not found".
Proof.
  split; [vm_compute; reflexivity|].
  split; [reflexivity|].
  split; [vm_compute; reflexivity|].
  split; [reflexivity|].
  apply GCS_UpdateTask_never_not_found.
Qed.

(** ** Get on the bucket *)

Lemma GCS_GetTask_absent (s : GCSStorage.t) taskID :
  GCSStorage.objects s !! GCSStorage.objectName taskID = None →
  GCSStorage.GetTask taskID s = (Err "task not found", s).
Proof.
  intros Hnone. unfold GCSStorage.GetTask, GCSStorage.NewReader. rewrite Hnone.
  by destruct (GCSStorage.failing s _).
Qed.

Lemma GCS_GetTask_corrupt (s : GCSStorage.t) taskID cause :
  GCSStorage.failing s (GCSStorage.OpNewReader (GCSStorage.objectName taskID)) = None →
  GCSStorage.objects s !! GCSStorage.objectName taskID = Some (GCSStorage.Corrupt cause) →
  GCSStorage.GetTask taskID s = (Err ("error decoding task: " +:+ cause), s).
Proof.
  intros Hopen Hget. unfold GCSStorage.GetTask, GCSStorage.NewReader.
  by rewrite Hopen, Hget.
Qed.

(** C2, as the specification states it, fails on a bucket whose object
    for the id is not the JSON of a task: the object opens, decoding it
    fails, and the error of get is not of the class NotFound. *)
Lemma GCS_GetTask_decode_failure_is_not_NotFound :
  GCSStorage.NewReader (GCSStorage.objectName "a") corrupt_bucket
    = Ok (GCSStorage.Corrupt "unexpected EOF")
  ∧ GCSStorage.Decode (GCSStorage.Corrupt "unexpected EOF") = Err "unexpected EOF"
  ∧ GCSStorage.GetTask "a" corrupt_bucket
      = (Err "error decoding task: unexpected EOF", corrupt_bucket)
  ∧ classify "error decoding task: unexpected EOF" = Internal
  ∧ ¬ ∃ msg, (GCSStorage.GetTask "a" corrupt_bucket).1 = Err msg
             ∧ classify msg = NotFound.
Proof.
  split; [vm_compute; reflexivity|].
  split; [reflexivity|].
  split; [vm_compute; reflexivity|].
  split; [vm_compute; reflexivity|].
  intros (msg & Hget & Hclass).
  apply classify_NotFound_inv in Hclass. subst msg.
  vm_compute in Hget. discriminate.
Qed.

(** C2, amended: get on the bucket fails with the error "task not found",
    of the class NotFound, when the object of the id does not exist; when
    the object exists and opens but its content fails to decode, get fails
    with the error "error decoding task: " followed by the decoder's
    message, which is not of the class NotFound. *)
Theorem GCS_GetTask_failures (s : GCSStorage.t) (taskID : string) :
  (GCSStorage.objects s !! GCSStorage.objectName taskID = None →
     GCSStorage.GetTask taskID s = (Err "task not found", s))
  ∧ classify "task not found" = NotFound
  ∧ (∀ cause,
       GCSStorage.failing s (GCSStorage.OpNewReader (GCSStorage.objectName taskID)) = None →
       GCSStorage.objects s !! GCSStorage.objectName taskID
         = Some (GCSStorage.Corrupt cause) →
       GCSStorage.GetTask taskID s = (Err ("error decoding task: " +:+ cause), s)
       ∧ classify ("error decoding task: " +:+ cause) ≠ NotFound).
Proof.
  split; [apply GCS_GetTask_absent|].
  split; [reflexivity|].
  intros cause Hopen Hget.
  split; [by apply GCS_GetTask_corrupt | apply decode_error_not_NotFound].
Qed.

Lemma GCS_GetTask_failures_sample :
  GCSStorage.GetTask "a" (GCSStorage.New "todo-bucket")
    = (Err "task not found", GCSStorage.New "todo-bucket")
  ∧ GCSStorage.GetTask "a" corrupt_bucket
      = (Err ("error decoding task: " +:+ "unexpected EOF"), corrupt_bucket)
  ∧ classify ("error decoding task: " +:+ "unexpected EOF") ≠ NotFound.
Proof.
  split.
  - apply (proj1 (GCS_GetTask_failures (GCSStorage.New "todo-bucket") "a")).
    vm_compute. reflexivity.
  - apply (proj2 (proj2 (GCS_GetTask_failures corrupt_bucket "a")) "unexpected EOF").
    + reflexivity.
    + vm_compute. reflexivity.
Defined.

(** ** Status of an update request *)

(** Whatever the backend, an error of [GetTask] is answered with 403 or
    with 404 and never with 500. *)
Lemma updateTask_get_error_status {S : Type} (B : StorageBackend S)
    taskID req (s s1 : S) err :
  GetTask taskID s = (Err err, s1) →
  Status (updateTask taskID (Some req) s).1
  = if isPermissionError (Some err) then StatusForbidden else StatusNotFound.
Proof.
  intros Hget. unfold updateTask. rewrite Hget.
  by destruct (isPermissionError _).
Qed.

(** On the in-memory backend the answer is 404 exactly when the id is
    absent. *)
Lemma InMemory_updateTask_404_iff (s : InMemoryStorage.t) taskID req :
  InMemoryStorage.keyed s →
  Status (updateTask taskID (Some req) s).1 = StatusNotFound
  ↔ InMemoryStorage.tasks s !! taskID = None.
Proof.
  intros Hk. destruct (InMemoryStorage.tasks s !! taskID) as [existing|] eqn:Hget.
  - rewrite (InMemory_updateTask_ok s taskID req existing Hk Hget). by cbn.
  - split; [done|]. intros _.
    rewrite (updateTask_get_error_status InMemory_backend taskID req s s "task not found").
    + reflexivity.
    + cbn. unfold InMemoryStorage.GetTask. by rewrite Hget.
Qed.

(** The sibling handler tells the message of an absent task from other
    errors: a delete that fails in the client is answered with 500. *)
Example deleteTask_internal_error :
  Status (deleteTask "a"
            {| GCSStorage.objects := GCSStorage.objects sample_bucket;
               GCSStorage.failing := fun op =>
                 match op with
                 | GCSStorage.OpDelete _ => Some "context deadline exceeded"
                 | _ => None
                 end;
               GCSStorage.bucketName := "todo-bucket" |}).1
  = StatusInternalServerError.
Proof. vm_compute. reflexivity. Qed.

(** C3: for an id whose object exists but does not decode, the backend's
    get fails with an error of the class Internal, and the update request
    is answered with 404 "Task not found", not with 500. *)
Theorem updateTask_decode_failure_answers_404 :
  is_Some (GCSStorage.objects corrupt_bucket !! GCSStorage.objectName "a")
  ∧ GCSStorage.GetTask "a" corrupt_bucket
      = (Err "error decoding task: unexpected EOF", corrupt_bucket)
  ∧ classify "error decoding task: unexpected EOF" = Internal
  ∧ updateTask "a" (Some {| Upd_Text := None; Upd_Completed := Some true |}) corrupt_bucket
      = (httpError "Task not found" StatusNotFound, corrupt_bucket).
Proof.
  split; [eexists; vm_compute; reflexivity|].
  split; [vm_compute; reflexivity|].
  split; vm_compute; reflexivity.
Qed.

(** * Further properties of the code *)

(** ** The in-memory store *)

Lemma InMemory_listing_ids (s : InMemoryStorage.t) :
  InMemoryStorage.keyed s →
  ID <$> (snd <$> map_to_list (InMemoryStorage.tasks s))
  = fst <$> map_to_list (InMemoryStorage.tasks s).
Proof.
  intros Hk. rewrite <- list_fmap_compose. apply Forall_fmap_ext_1.
  apply Forall_forall. intros [k task] Hel%elem_of_map_to_list. cbn.
  by apply Hk.
Qed.

Lemma InMemory_listing_elem (s : InMemoryStorage.t) task :
  InMemoryStorage.keyed s →
  task ∈ snd <$> map_to_list (InMemoryStorage.tasks s)
  ↔ InMemoryStorage.tasks s !! ID task = Some task.
Proof.
  intros Hk. rewrite list_elem_of_fmap. split.
  - intros [[k task'] [-> Hel%elem_of_map_to_list]]. cbn.
    by rewrite (Hk _ _ Hel).
  - intros Hget. exists (ID task, task). split; [done|].
    by apply elem_of_map_to_list.
Qed.

(** X1: in every state the server can reach, the listing holds each stored
    task once: its ids are pairwise distinct, it has as many tasks as the
    map has entries, and a task is listed exactly when get of its id
    returns it. *)
Theorem InMemory_listing_matches_get (s : InMemoryStorage.t) :
  InMemoryStorage.reachable s →
  ∃ tasks, InMemoryStorage.ListTasks s = (Ok tasks, s)
    ∧ NoDup (ID <$> tasks)
    ∧ length tasks = size (InMemoryStorage.tasks s)
    ∧ ∀ task, task ∈ tasks ↔ InMemoryStorage.GetTask (ID task) s = (Ok task, s).
Proof.
  intros Hk%InMemoryFacts.reachable_keyed.
  eexists. split; [reflexivity|]. split; [|split].
  - rewrite InMemory_listing_ids by done. apply NoDup_fst_map_to_list.
  - by rewrite length_fmap, length_map_to_list.
  - intros task. rewrite InMemory_listing_elem by done.
    unfold InMemoryStorage.GetTask.
    destruct (InMemoryStorage.tasks s !! ID task); naive_solver.
Qed.

Lemma InMemory_listing_matches_get_sample :
  ∃ tasks, InMemoryStorage.ListTasks sample_store = (Ok tasks, sample_store)
    ∧ NoDup (ID <$> tasks)
    ∧ length tasks = size (InMemoryStorage.tasks sample_store)
    ∧ ∀ task, task ∈ tasks
        ↔ InMemoryStorage.GetTask (ID task) sample_store = (Ok task, sample_store).
Proof.
  apply (InMemory_listing_matches_get sample_store).
  apply InMemoryStorage.reach_Create, InMemoryStorage.reach_New.
Defined.

(** X2: create replaces without a trace: creating the same task a second
    time changes nothing, the number of stored tasks grows by one when the
    id is new and stays when the id was taken, and get of any other id
    answers as before. *)
Theorem InMemory_CreateTask_overwrites (s : InMemoryStorage.t) (task : Task) :
  InMemoryStorage.CreateTask task (InMemoryStorage.CreateTask task s).2
    = InMemoryStorage.CreateTask task s
  ∧ size (InMemoryStorage.tasks (InMemoryStorage.CreateTask task s).2)
    = match InMemoryStorage.tasks s !! ID task with
      | Some _ => size (InMemoryStorage.tasks s)
      | None => S (size (InMemoryStorage.tasks s))
      end
  ∧ ∀ taskID, taskID ≠ ID task →
      (InMemoryStorage.GetTask taskID (InMemoryStorage.CreateTask task s).2).1
      = (InMemoryStorage.GetTask taskID s).1.
Proof.
  destruct s as [m]. unfold InMemoryStorage.CreateTask; cbn. split; [|split].
  - by rewrite insert_insert_eq.
  - rewrite map_size_insert. by destruct (m !! ID task).
  - intros taskID Hne. unfold InMemoryStorage.GetTask; cbn.
    rewrite lookup_insert_ne by done. by destruct (m !! taskID).
Qed.

(** X3: a delete that succeeds removes one task and nothing else: the
    listing before is the deleted task together with the listing after,
    the count drops by one, and get of any other id answers as before. *)
Theorem InMemory_DeleteTask_removes_one (s : InMemoryStorage.t) taskID existing :
  InMemoryStorage.tasks s !! taskID = Some existing →
  ∃ s' before after,
    InMemoryStorage.DeleteTask taskID s = (None, s')
    ∧ InMemoryStorage.ListTasks s = (Ok before, s)
    ∧ InMemoryStorage.ListTasks s' = (Ok after, s')
    ∧ before ≡ₚ existing :: after
    ∧ S (size (InMemoryStorage.tasks s')) = size (InMemoryStorage.tasks s)
    ∧ ∀ other, other ≠ taskID →
        (InMemoryStorage.GetTask other s').1 = (InMemoryStorage.GetTask other s).1.
Proof.
  intros Hget. destruct s as [m]; cbn in *.
  eexists _, _, _. split; [|split; [reflexivity|split; [reflexivity|]]].
  - unfold InMemoryStorage.DeleteTask; cbn. by rewrite Hget.
  - cbn. split; [|split].
    + rewrite <- (map_to_list_delete m taskID existing Hget). done.
    + rewrite map_size_delete, Hget.
      pose proof (map_size_insert_None taskID existing (delete taskID m)
                    (lookup_delete_eq m taskID)) as Hsz.
      rewrite insert_delete_id in Hsz by done. rewrite Hsz. done.
    + intros other Hne. unfold InMemoryStorage.GetTask; cbn.
      rewrite lookup_delete_ne by done. by destruct (m !! other).
Qed.

Lemma InMemory_DeleteTask_removes_one_sample :
  ∃ s' before after,
    InMemoryStorage.DeleteTask "a" sample_store = (None, s')
    ∧ InMemoryStorage.ListTasks sample_store = (Ok before, sample_store)
    ∧ InMemoryStorage.ListTasks s' = (Ok after, s')
    ∧ before ≡ₚ sample_task :: after
    ∧ S (size (InMemoryStorage.tasks s')) = size (InMemoryStorage.tasks sample_store)
    ∧ ∀ other, other ≠ "a" →
        (InMemoryStorage.GetTask other s').1
        = (InMemoryStorage.GetTask other sample_store).1.
Proof.
  apply (InMemory_DeleteTask_removes_one sample_store "a" sample_task).
  vm_compute. reflexivity.
Defined.

(** X4: update never adds or removes an id: whether it succeeds or fails,
    the set of stored ids and every task filed under another id are as
    before; it fails exactly when the id of the task is not stored, and
    then changes nothing. *)
Theorem InMemory_UpdateTask_keeps_ids (s : InMemoryStorage.t) (task : Task) :
  dom (InMemoryStorage.tasks (InMemoryStorage.UpdateTask task s).2)
    = dom (InMemoryStorage.tasks s)
  ∧ (∀ other, other ≠ ID task →
       InMemoryStorage.tasks (InMemoryStorage.UpdateTask task s).2 !! other
       = InMemoryStorage.tasks s !! other)
  ∧ match InMemoryStorage.tasks s !! ID task with
    | Some _ =>
        (InMemoryStorage.UpdateTask task s).1 = None
        ∧ InMemoryStorage.tasks (InMemoryStorage.UpdateTask task s).2 !! ID task
          = Some task
    | None => InMemoryStorage.UpdateTask task s = (Some "task not found", s)
    end.
Proof.
  destruct s as [m]. unfold InMemoryStorage.UpdateTask; cbn.
  destruct (m !! ID task) as [old|] eqn:Hget; cbn.
  - split; [by apply dom_insert_lookup_L|]. split.
    + intros other Hne. by rewrite lookup_insert_ne.
    + split; [done | apply lookup_insert_eq].
  - done.
Qed.

(** X5: a create of a new id followed by the delete of that id brings the
    store back to the state before the create. *)
Theorem InMemory_create_delete_restores (s : InMemoryStorage.t) (task : Task) :
  InMemoryStorage.tasks s !! ID task = None →
  InMemoryStorage.DeleteTask (ID task) (InMemoryStorage.CreateTask task s).2
  = (None, s).
Proof.
  intros Hnone. destruct s as [m]; cbn in *.
  unfold InMemoryStorage.DeleteTask; cbn. rewrite lookup_insert_eq.
  by rewrite delete_insert_id.
Qed.

Lemma InMemory_create_delete_restores_sample :
  InMemoryStorage.DeleteTask (ID sample_task)
    (InMemoryStorage.CreateTask sample_task InMemoryStorage.New).2
  = (None, InMemoryStorage.New).
Proof.
  apply (InMemory_create_delete_restores InMemoryStorage.New sample_task).
  reflexivity.
Defined.

(** ** The bucket *)

Lemma append_length (a b : string) :
  String.length (a +:+ b) = (String.length a + String.length b)%nat.
Proof. induction a as [|c a IH]; [done|]. exact (f_equal S IH). Qed.

Lemma append_inj_r (c a b : string) : a +:+ c = b +:+ c → a = b.
Proof.
  revert b. induction a as [|x a IH]; intros [|y b] Heq.
  - done.
  - apply (f_equal String.length) in Heq.
    rewrite !append_length in Heq. cbn in Heq. lia.
  - apply (f_equal String.length) in Heq.
    rewrite !append_length in Heq. cbn in Heq. lia.
  - change (String x (a +:+ c) = String y (b +:+ c)) in Heq.
    injection Heq as -> Heq. f_equal. by apply IH.
Qed.

(** Tasks of different ids are kept in different objects. *)
Lemma objectName_inj (a b : string) :
  GCSStorage.objectName a = GCSStorage.objectName b → a = b.
Proof.
  unfold GCSStorage.objectName. intros Heq.
  apply (inj (String.append "task-")) in Heq. by apply append_inj_r in Heq.
Qed.


Lemma GCS_list_fold_elem (s : GCSStorage.t) (entries : list (string * GCSStorage.Blob))
    (acc : list Task) (task : Task) :
  task ∈ foldl (GCSStorage.listStep s) acc entries
  ↔ task ∈ acc
    ∨ ∃ name b, (name, b) ∈ entries
        ∧ GCSStorage.NewReader name s = Ok (GCSStorage.Valid task).
Proof.
  revert acc. induction entries as [|[name b] entries IH]; intros acc; cbn.
  - split; [by left|]. intros [?|(? & ? & []%elem_of_nil & _)]. done.
  - rewrite IH. unfold GCSStorage.listStep at 1. cbn.
    destruct (GCSStorage.NewReader name s) as [[read|cause]|e] eqn:Hread; cbn.
    + rewrite elem_of_app, list_elem_of_singleton. split.
      * intros [[?| ->]|(name' & b' & Hel & Hr)]; [by left| |].
        -- right. exists name, b. split; [left|done].
        -- right. exists name', b'. split; [by right|done].
      * intros [?|(name' & b' & Hel & Hr)]; [by left; left|].
        apply elem_of_cons in Hel as [[= -> ->]|Hel].
        -- rewrite Hread in Hr. injection Hr as ->. left. by right.
        -- right. by exists name', b'.
    + split.
      * intros [?|(name' & b' & Hel & Hr)]; [by left|].
        right. exists name', b'. split; [by right|done].
      * intros [?|(name' & b' & Hel & Hr)]; [by left|].
        apply elem_of_cons in Hel as [[= -> ->]|Hel]; [congruence|].
        right. by exists name', b'.
    + split.
      * intros [?|(name' & b' & Hel & Hr)]; [by left|].
        right. exists name', b'. split; [by right|done].
      * intros [?|(name' & b' & Hel & Hr)]; [by left|].
        apply elem_of_cons in Hel as [[= -> ->]|Hel]; [congruence|].
        right. by exists name', b'.
Qed.

Lemma GCS_NewReader_Ok (s : GCSStorage.t) name b :
  GCSStorage.NewReader name s = Ok b
  ↔ GCSStorage.failing s (GCSStorage.OpNewReader name) = None
    ∧ GCSStorage.objects s !! name = Some b.
Proof.
  unfold GCSStorage.NewReader.
  destruct (GCSStorage.failing s _).
  { split; [discriminate | intros [[=] _]]. }
  destruct (GCSStorage.objects s !! name).
  - split; [by intros [= ->] | by intros [_ [= ->]]].
  - split; [discriminate | intros [_ [=]]].
Qed.

Lemma GCS_ListTasks_elem (s : GCSStorage.t) (tasks : list Task) (task : Task) :
  GCSStorage.ListTasks s = (Ok tasks, s) →
  task ∈ tasks
  ↔ ∃ name, String.prefix "task-" name = true
      ∧ GCSStorage.failing s (GCSStorage.OpNewReader name) = None
      ∧ GCSStorage.objects s !! name = Some (GCSStorage.Valid task).
Proof.
  unfold GCSStorage.ListTasks.
  destruct (GCSStorage.failing s GCSStorage.OpNext); [discriminate|].
  intros [= <-]. rewrite GCS_list_fold_elem. split.
  - intros [[]%elem_of_nil|(name & b & Hel & Hr)].
    apply list_elem_of_filter in Hel as [Hpre Hel]. cbn in Hpre.
    apply GCS_NewReader_Ok in Hr as [Hopen Hget]. by exists name.
  - intros (name & Hpre & Hopen & Hget). right.
    exists name, (GCSStorage.Valid task). split.
    + apply list_elem_of_filter. split; [done|]. by apply elem_of_map_to_list.
    + by apply GCS_NewReader_Ok.
Qed.

(** X6: listing the bucket fails only when the iterator fails, and then
    the request is answered with 500; otherwise the answer is 200 with
    exactly the tasks of the objects whose name starts with "task-", that
    can be opened and that decode: an object that cannot be opened or
    decoded is left out and never fails the listing.  The bucket is as
    before in both cases. *)
Theorem GCS_getTasks_best_effort (s : GCSStorage.t) :
  match GCSStorage.failing s GCSStorage.OpNext with
  | Some _ =>
      getTasks s = (httpError "Internal server error" StatusInternalServerError, s)
  | None =>
      ∃ tasks,
        getTasks s = (respond StatusOK "Tasks retrieved successfully" (Tasks tasks), s)
        ∧ ∀ task, task ∈ tasks
            ↔ ∃ name, String.prefix "task-" name = true
                ∧ GCSStorage.failing s (GCSStorage.OpNewReader name) = None
                ∧ GCSStorage.objects s !! name = Some (GCSStorage.Valid task)
  end.
Proof.
  destruct (GCSStorage.failing s GCSStorage.OpNext) as [e|] eqn:Hnext.
  - unfold getTasks; cbn. unfold GCSStorage.ListTasks. by rewrite Hnext.
  - destruct (GCSStorage.ListTasks s) as [r s1] eqn:Hlist.
    assert (∃ tasks, r = Ok tasks ∧ s1 = s) as (tasks & -> & ->).
    { unfold GCSStorage.ListTasks in Hlist. rewrite Hnext in Hlist.
      injection Hlist as <- <-. by eexists. }
    exists tasks. split.
    + unfold getTasks; cbn. by rewrite Hlist.
    + intros task. by apply GCS_ListTasks_elem.
Qed.

Example GCS_getTasks_skips_corrupt :
  (getTasks
     (GCSStorage.with_objects sample_bucket
        (<["task-zz.json" := GCSStorage.Corrupt "unexpected EOF"]>
           (GCSStorage.objects sample_bucket)))).1
  = respond StatusOK "Tasks retrieved successfully" (Tasks [sample_task]).
Proof. vm_compute. reflexivity. Qed.



Lemma GCS_GetTask_answer (s : GCSStorage.t) taskID :
  (GCSStorage.GetTask taskID s).1
  = match GCSStorage.NewReader (GCSStorage.objectName taskID) s with
    | Err _ => Err "task not found"
    | Ok b =>
        match GCSStorage.Decode b with
        | Err e => Err ("error decoding task: " +:+ e)
        | Ok task => Ok task
        end
    end.
Proof.
  unfold GCSStorage.GetTask.
  destruct (GCSStorage.NewReader _ s) as [b|]; [|done].
  by destruct (GCSStorage.Decode b).
Qed.

(** X8: tasks of different ids do not interfere on the bucket: two ids
    have the same object name only when they are equal, and neither the
    create of a task nor the delete of its id changes what get returns for
    another id. *)
Theorem GCS_other_ids_untouched (s : GCSStorage.t) (task : Task) (other : string) :
  other ≠ ID task →
  GCSStorage.objectName other ≠ GCSStorage.objectName (ID task)
  ∧ (GCSStorage.GetTask other (GCSStorage.CreateTask task s).2).1
    = (GCSStorage.GetTask other s).1
  ∧ (GCSStorage.GetTask other (GCSStorage.DeleteTask (ID task) s).2).1
    = (GCSStorage.GetTask other s).1.
Proof.
  intros Hne.
  assert (GCSStorage.objectName (ID task) ≠ GCSStorage.objectName other) as Hname
    by (intros Heq%objectName_inj; congruence).
  split; [congruence|]. split.
  - unfold GCSStorage.CreateTask.
    repeat (destruct (GCSStorage.failing s _); [done|]).
    rewrite !GCS_GetTask_answer. unfold GCSStorage.NewReader; cbn.
    by rewrite lookup_insert_ne.
  - unfold GCSStorage.DeleteTask.
    destruct (GCSStorage.Attrs _ s); [done|].
    destruct (GCSStorage.failing s _); [done|].
    rewrite !GCS_GetTask_answer. unfold GCSStorage.NewReader; cbn.
    by rewrite lookup_delete_ne.
Qed.

Lemma GCS_other_ids_untouched_sample :
  GCSStorage.objectName "b" ≠ GCSStorage.objectName (ID sample_task)
  ∧ (GCSStorage.GetTask "b" (GCSStorage.CreateTask sample_task corrupt_bucket).2).1
    = (GCSStorage.GetTask "b" corrupt_bucket).1
  ∧ (GCSStorage.GetTask "b" (GCSStorage.DeleteTask (ID sample_task) corrupt_bucket).2).1
    = (GCSStorage.GetTask "b" corrupt_bucket).1.
Proof. apply (GCS_other_ids_untouched corrupt_bucket sample_task "b"). discriminate. Defined.

(** X9: on the bucket, the delete of an id whose object exists, when
    neither the probe nor the delete call fails, removes the object
    whatever its content: one object less, and afterwards get and delete
    of the id return "task not found" and the handlers answer 404. *)
Theorem GCS_delete_then_not_found (s : GCSStorage.t) (taskID : string) :
  is_Some (GCSStorage.objects s !! GCSStorage.objectName taskID) →
  GCSStorage.failing s (GCSStorage.OpAttrs (GCSStorage.objectName taskID)) = None →
  GCSStorage.failing s (GCSStorage.OpDelete (GCSStorage.objectName taskID)) = None →
  ∃ s', GCSStorage.DeleteTask taskID s = (None, s')
    ∧ S (size (GCSStorage.objects s')) = size (GCSStorage.objects s)
    ∧ GCSStorage.GetTask taskID s' = (Err "task not found", s')
    ∧ GCSStorage.DeleteTask taskID s' = (Some "task not found", s')
    ∧ (∀ req, updateTask taskID (Some req) s'
              = (httpError "Task not found" StatusNotFound, s'))
    ∧ deleteTask taskID s' = (httpError "Task not found" StatusNotFound, s').
Proof.
  intros [b Hget] Hattrs Hdel.
  exists (GCSStorage.with_objects s
            (delete (GCSStorage.objectName taskID) (GCSStorage.objects s))).
  assert (GCSStorage.DeleteTask taskID s
          = (None, GCSStorage.with_objects s
                     (delete (GCSStorage.objectName taskID) (GCSStorage.objects s))))
    as Hrun.
  { unfold GCSStorage.DeleteTask, GCSStorage.Attrs. by rewrite Hattrs, Hget, Hdel. }
  assert (∀ s', GCSStorage.objects s' !! GCSStorage.objectName taskID = None →
                GCSStorage.DeleteTask taskID s' = (Some "task not found", s'))
    as Hgone.
  { intros s' Hnone. unfold GCSStorage.DeleteTask, GCSStorage.Attrs.
    rewrite Hnone. by destruct (GCSStorage.failing s' _). }
  split; [done|]. split; [|split; [|split; [|split]]].
  - cbn. rewrite map_size_delete, Hget.
    pose proof (map_size_insert_None _ b _
                  (lookup_delete_eq (GCSStorage.objects s) (GCSStorage.objectName taskID)))
      as Hsz.
    rewrite insert_delete_id in Hsz by done. by rewrite Hsz.
  - apply GCS_GetTask_absent. cbn. apply lookup_delete_eq.
  - apply Hgone. cbn. apply lookup_delete_eq.
  - intros req. unfold updateTask. cbn.
    rewrite GCS_GetTask_absent by (cbn; apply lookup_delete_eq). done.
  - unfold deleteTask. cbn. rewrite Hgone by (cbn; apply lookup_delete_eq). done.
Qed.

Lemma GCS_delete_then_not_found_sample :
  ∃ s', GCSStorage.DeleteTask "a" corrupt_bucket = (None, s')
    ∧ S (size (GCSStorage.objects s')) = size (GCSStorage.objects corrupt_bucket)
    ∧ GCSStorage.GetTask "a" s' = (Err "task not found", s')
    ∧ GCSStorage.DeleteTask "a" s' = (Some "task not found", s')
    ∧ (∀ req, updateTask "a" (Some req) s'
              = (httpError "Task not found" StatusNotFound, s'))
    ∧ deleteTask "a" s' = (httpError "Task not found" StatusNotFound, s').
Proof.
  apply (GCS_delete_then_not_found corrupt_bucket "a").
  - eexists. vm_compute. reflexivity.
  - reflexivity.
  - reflexivity.
Defined.



(** ** The classifier of permission errors *)

Lemma noSlash_nil : noSlash "".
Proof. intros i. by destruct i. Qed.

Lemma noSlash_cons (c : ascii) (msg : string) :
  noSlash (String c msg) ↔ Ascii.eqb c "/" = false ∧ noSlash msg.
Proof.
  split.
  - intros Hno. split; [apply (Hno O) | intros i; apply (Hno (S i))].
  - intros [Hc Hno] [|i]; [exact Hc | apply (Hno i)].
Qed.

Lemma noSlash_append (a b : string) : noSlash a → noSlash b → noSlash (a +:+ b).
Proof.
  induction a as [|c a IH]; intros Ha Hb; [done|].
  apply noSlash_cons in Ha as [Hc Ha].
  change (noSlash (String c (a +:+ b))). apply noSlash_cons. auto.
Qed.

(** Proves [noSlash] of a literal, character by character. *)
Local Ltac noSlash_literal :=
  repeat (apply noSlash_cons; split; [reflexivity|]); apply noSlash_nil.

Lemma stripTrailing_noSlash (msg : string) (n : nat) :
  noSlash msg → stripTrailing n msg = n.
Proof. intros Hno. destruct n as [|k]; [done|]. cbn. by rewrite Hno. Qed.

Lemma lastSlash_noSlash (msg : string) (n : nat) :
  noSlash msg → lastSlash n msg = -1.
Proof. intros Hno. induction n as [|k IH]; [done|]. cbn. by rewrite Hno. Qed.

Lemma substring_whole (msg : string) :
  String.substring 0 (String.length msg) msg = msg.
Proof. induction msg as [|c msg IH]; [done|]. cbn. by rewrite IH. Qed.

Lemma Base_noSlash (msg : string) : noSlash msg → msg ≠ "" → Base msg = msg.
Proof.
  intros Hno Hne. unfold Base.
  destruct (String.eqb_spec msg ""); [done|].
  rewrite stripTrailing_noSlash, substring_whole by done.
  rewrite lastSlash_noSlash by done. cbn.
  by destruct (String.eqb_spec msg "").
Qed.

Lemma isPermissionError_noSlash (msg : string) :
  noSlash msg →
  isPermissionError (Some msg) = true
  ↔ msg = "403" ∨ msg = "forbidden" ∨ msg = "permission denied".
Proof.
  intros Hno. destruct (decide (msg = "")) as [->|Hne].
  { split; [discriminate|]. by intros [|[|]]. }
  unfold isPermissionError. rewrite Base_noSlash by done.
  rewrite !orb_true_iff, !String.eqb_eq. tauto.
Qed.

(** X11: on a message without a slash the classifier looks at the whole
    message: such a message is a permission error exactly when it is
    "403", "forbidden" or "permission denied" and nothing more. *)
Theorem isPermissionError_whole_message (msg : string) :
  noSlash msg →
  isPermissionError (Some msg) = true
  ↔ msg = "403" ∨ msg = "forbidden" ∨ msg = "permission denied".
Proof. apply isPermissionError_noSlash. Qed.

Lemma isPermissionError_whole_message_sample :
  isPermissionError (Some "googleapi: Error 403: access denied, forbidden") = true
  ↔ "googleapi: Error 403: access denied, forbidden" = "403"
    ∨ "googleapi: Error 403: access denied, forbidden" = "forbidden"
    ∨ "googleapi: Error 403: access denied, forbidden" = "permission denied".
Proof.
  apply (isPermissionError_whole_message
           "googleapi: Error 403: access denied, forbidden").
  noSlash_literal.
Defined.

(** An error that the bucket's methods wrap starts with "error" and is no
    permission error when its cause has no slash. *)
Lemma wrapped_is_no_permission_error (rest cause : string) :
  noSlash rest → noSlash cause →
  isPermissionError (Some (String "e" rest +:+ cause)) = false.
Proof.
  intros Hrest Hcause. apply not_true_is_false.
  intros Hperm. apply isPermissionError_noSlash in Hperm.
  - destruct Hperm as [H|[H|H]]; discriminate H.
  - apply noSlash_append; [|done]. apply noSlash_cons. by split.
Qed.

Lemma GCS_CreateTask_no_permission_error (s : GCSStorage.t) task err s' :
  (∀ op e, GCSStorage.failing s op = Some e → noSlash e) →
  GCSStorage.CreateTask task s = (Some err, s') →
  isPermissionError (Some err) = false.
Proof.
  intros Hno. unfold GCSStorage.CreateTask.
  destruct (GCSStorage.failing s (GCSStorage.OpMarshal task)) as [e|] eqn:H1.
  { intros [= <- <-]. apply wrapped_is_no_permission_error; [noSlash_literal|eauto]. }
  destruct (GCSStorage.failing s (GCSStorage.OpWrite _)) as [e|] eqn:H2.
  { intros [= <- <-]. apply wrapped_is_no_permission_error; [noSlash_literal|eauto]. }
  destruct (GCSStorage.failing s (GCSStorage.OpClose _)) as [e|] eqn:H3.
  { intros [= <- <-]. apply wrapped_is_no_permission_error; [noSlash_literal|eauto]. }
  discriminate.
Qed.

Lemma GCS_GetTask_no_permission_error (s : GCSStorage.t) taskID err s' :
  (∀ name cause, GCSStorage.objects s !! name = Some (GCSStorage.Corrupt cause) →
                 noSlash cause) →
  GCSStorage.GetTask taskID s = (Err err, s') →
  isPermissionError (Some err) = false.
Proof.
  intros Hno. unfold GCSStorage.GetTask.
  destruct (GCSStorage.NewReader _ s) as [[task|cause]|e] eqn:Hread; cbn.
  - discriminate.
  - intros [= <- <-]. apply GCS_NewReader_Ok in Hread as [_ Hget].
    apply wrapped_is_no_permission_error; [noSlash_literal|eauto].
  - by intros [= <- <-].
Qed.

Lemma GCS_DeleteTask_no_permission_error (s : GCSStorage.t) taskID err s' :
  (∀ op e, GCSStorage.failing s op = Some e → noSlash e) →
  GCSStorage.DeleteTask taskID s = (Some err, s') →
  isPermissionError (Some err) = false.
Proof.
  intros Hno. unfold GCSStorage.DeleteTask.
  destruct (GCSStorage.Attrs _ s); [by intros [= <- <-]|].
  destruct (GCSStorage.failing s (GCSStorage.OpDelete _)) as [e|] eqn:H1.
  { intros [= <- <-]. apply wrapped_is_no_permission_error; [noSlash_literal|eauto]. }
  discriminate.
Qed.

(** X12: with the bucket, a request is answered with 403 only if a
    message of the client or of the decoder contains a slash: when no
    failure message and no decoding error has one, no route answers 403,
    whatever the messages say. *)
Theorem GCS_forbidden_needs_a_slash (s : GCSStorage.t) (cfg : Config) (r : Request) :
  (∀ op e, GCSStorage.failing s op = Some e → noSlash e) →
  (∀ name cause, GCSStorage.objects s !! name = Some (GCSStorage.Corrupt cause) →
                 noSlash cause) →
  Status (serve cfg r s).1 ≠ StatusForbidden.
Proof.
  intros Hfail Hcorrupt.
  destruct r as [|body taskID now|taskID body|taskID| |]; cbn.
  - unfold getTasks; cbn. by destruct (GCSStorage.ListTasks s) as [[|] ?].
  - unfold createTask. destruct body as [req|]; [|done].
    destruct (String.eqb _ _); [done|]. cbn.
    destruct (GCSStorage.CreateTask _ s) as [[err|] s'] eqn:Hrun; [|done].
    by rewrite (GCS_CreateTask_no_permission_error _ _ _ _ Hfail Hrun).
  - unfold updateTask. destruct body as [req|]; [|done]. cbn.
    destruct (GCSStorage.GetTask taskID s) as [[existing|err] s1] eqn:Hget.
    + assert (s1 = s) as ->.
      { unfold GCSStorage.GetTask in Hget.
        destruct (GCSStorage.NewReader _ s) as [b|]; [|by injection Hget].
        destruct (GCSStorage.Decode b); by injection Hget. }
      unfold GCSStorage.UpdateTask.
      destruct (GCSStorage.CreateTask _ s) as [[err|] s'] eqn:Hrun; [|done].
      by rewrite (GCS_CreateTask_no_permission_error _ _ _ _ Hfail Hrun).
    + by rewrite (GCS_GetTask_no_permission_error _ _ _ _ Hcorrupt Hget).
  - unfold deleteTask; cbn.
    destruct (GCSStorage.DeleteTask taskID s) as [[err|] s'] eqn:Hrun; [|done].
    rewrite (GCS_DeleteTask_no_permission_error _ _ _ _ Hfail Hrun).
    by destruct (String.eqb _ _).
  - done.
  - done.
Qed.

Lemma GCS_forbidden_needs_a_slash_sample :
  Status
    (serve {| useLocalStorage := false; bucketName := "todo-bucket" |}
       (POST_tasks (Some {| Req_Text := "walk"; Req_Completed := false |}) "b" 7)
       {| GCSStorage.objects := ∅;
          GCSStorage.failing := fun _ => Some "permission denied";
          GCSStorage.bucketName := "todo-bucket" |}).1
  ≠ StatusForbidden.
Proof.
  apply GCS_forbidden_needs_a_slash.
  - intros op e [= <-]. noSlash_literal.
  - intros name cause Hget. cbn in Hget. by rewrite lookup_empty in Hget.
Defined.

(** A refusal that the client reports as "permission denied" is answered
    with 500; with a slash before the word, with 403. *)
Example createTask_permission_denied_answers_500 :
  Status
    (createTask (Some {| Req_Text := "walk"; Req_Completed := false |}) "b" 7
       {| GCSStorage.objects := ∅;
          GCSStorage.failing := fun _ => Some "permission denied";
          GCSStorage.bucketName := "todo-bucket" |}).1
  = StatusInternalServerError
  ∧ Status
      (createTask (Some {| Req_Text := "walk"; Req_Completed := false |}) "b" 7
         {| GCSStorage.objects := ∅;
            GCSStorage.failing := fun _ => Some "https://storage/403";
            GCSStorage.bucketName := "todo-bucket" |}).1
    = StatusForbidden.
Proof. split; vm_compute; reflexivity. Qed.

(** ** The handlers *)

(** X13: with the in-memory backend, a create request with a text is
    answered with 201 and the task made of the request's text and flag,
    the generated id and the time of the request; the task is stored under
    the id, and the next list request is answered with 200 and a list
    that contains it. *)
Theorem InMemory_createTask_created (s : InMemoryStorage.t)
    (req : TaskRequest) (taskID : string) (now : Z) :
  Req_Text req ≠ "" →
  ∃ s' tasks,
    createTask (Some req) taskID now s
    = (respond StatusCreated "Task created successfully"
         (OneTask {| ID := taskID; Text := Req_Text req;
                     Completed := Req_Completed req; CreatedAt := now |}), s')
    ∧ InMemoryStorage.GetTask taskID s'
      = (Ok {| ID := taskID; Text := Req_Text req;
               Completed := Req_Completed req; CreatedAt := now |}, s')
    ∧ getTasks s' = (respond StatusOK "Tasks retrieved successfully" (Tasks tasks), s')
    ∧ {| ID := taskID; Text := Req_Text req;
         Completed := Req_Completed req; CreatedAt := now |} ∈ tasks.
Proof.
  intros Htext. eexists _, _. split; [|split; [|split]].
  - unfold createTask. by destruct (String.eqb_spec (Req_Text req) "").
  - unfold InMemoryStorage.GetTask; cbn. by rewrite lookup_insert_eq.
  - reflexivity.
  - cbn. apply list_elem_of_fmap. eexists (taskID, _). split; [done|].
    apply elem_of_map_to_list. apply lookup_insert_eq.
Qed.

Lemma InMemory_createTask_created_sample :
  ∃ s' tasks,
    createTask (Some {| Req_Text := "walk"; Req_Completed := false |}) "b" 7 sample_store
    = (respond StatusCreated "Task created successfully"
         (OneTask {| ID := "b"; Text := "walk"; Completed := false; CreatedAt := 7 |}), s')
    ∧ InMemoryStorage.GetTask "b" s'
      = (Ok {| ID := "b"; Text := "walk"; Completed := false; CreatedAt := 7 |}, s')
    ∧ getTasks s' = (respond StatusOK "Tasks retrieved successfully" (Tasks tasks), s')
    ∧ {| ID := "b"; Text := "walk"; Completed := false; CreatedAt := 7 |} ∈ tasks.
Proof.
  apply (InMemory_createTask_created sample_store
           {| Req_Text := "walk"; Req_Completed := false |} "b" 7).
  discriminate.
Defined.

(** X14: the statuses of each handler, whatever the backend does: list
    answers 200 or 500 and never 403, even on a permission error; create
    answers 201, 400, 403 or 500 and never 404; update answers 200, 400,
    403, 404 or 500; delete answers 200, 403, 404 or 500 and never 400. *)
Theorem handler_statuses {S : Type} (B : StorageBackend S) (s : S) :
  Status (getTasks s).1 ∈ [StatusOK; StatusInternalServerError]
  ∧ (∀ body taskID now,
       Status (createTask body taskID now s).1
       ∈ [StatusCreated; StatusBadRequest; StatusForbidden; StatusInternalServerError])
  ∧ (∀ taskID body,
       Status (updateTask taskID body s).1
       ∈ [StatusOK; StatusBadRequest; StatusForbidden; StatusNotFound;
          StatusInternalServerError])
  ∧ (∀ taskID,
       Status (deleteTask taskID s).1
       ∈ [StatusOK; StatusForbidden; StatusNotFound; StatusInternalServerError]).
Proof.
  split; [|split; [|split]].
  - unfold getTasks. destruct (ListTasks s) as [[tasks|e] s']; cbn; set_solver.
  - intros body taskID now. unfold createTask.
    destruct body as [req|]; [|set_solver].
    destruct (String.eqb _ _); [set_solver|].
    destruct (CreateTask _ s) as [[e|] s']; [|set_solver].
    destruct (isPermissionError _); set_solver.
  - intros taskID body. unfold updateTask.
    destruct body as [req|]; [|set_solver].
    destruct (GetTask taskID s) as [[existing|e] s1].
    + destruct (UpdateTask _ s1) as [[e|] s']; [|set_solver].
      destruct (isPermissionError _); set_solver.
    + destruct (isPermissionError _); set_solver.
  - intros taskID. unfold deleteTask.
    destruct (DeleteTask taskID s) as [[e|] s']; [|set_solver].
    destruct (isPermissionError _); [set_solver|].
    destruct (String.eqb _ _); set_solver.
Qed.

(** X15: in a state that the in-memory server can reach, no request is
    answered with a server error: the status is 200, 201, 400 or 404, and
    the state after the request is again one the server can reach. *)
Theorem InMemory_serve_no_server_error (s : InMemoryStorage.t) (cfg : Config)
    (r : Request) :
  InMemoryStorage.reachable s →
  Status (serve cfg r s).1 ∈ [StatusOK; StatusCreated; StatusBadRequest; StatusNotFound]
  ∧ InMemoryStorage.reachable (serve cfg r s).2.
Proof.
  intros Hreach. pose proof (InMemoryFacts.reachable_keyed s Hreach) as Hk.
  destruct r as [|body taskID now|taskID body|taskID| |]; cbn.
  - split; [set_solver|done].
  - unfold createTask. destruct body as [req|]; [|split; [set_solver|done]].
    destruct (String.eqb _ _); [split; [set_solver|done]|]. cbn.
    split; [set_solver|].
    apply (InMemoryStorage.reach_Create
             {| ID := taskID; Text := Req_Text req;
                Completed := Req_Completed req; CreatedAt := now |} s Hreach).
  - destruct body as [req|]; [|split; [set_solver|done]].
    destruct (InMemoryStorage.tasks s !! taskID) as [existing|] eqn:Hget.
    + rewrite (InMemory_updateTask_ok s taskID req existing Hk Hget). cbn.
      split; [set_solver|].
      pose proof (InMemoryStorage.reach_Update (applyUpdate req existing) s Hreach)
        as Hstep.
      unfold InMemoryStorage.UpdateTask in Hstep.
      rewrite applyUpdate_ID, (Hk _ _ Hget), Hget in Hstep. exact Hstep.
    + unfold updateTask; cbn. unfold InMemoryStorage.GetTask. rewrite Hget. cbn.
      rewrite not_found_is_no_permission_error. split; [set_solver|done].
  - unfold deleteTask; cbn.
    pose proof (InMemoryStorage.reach_Delete taskID s Hreach) as Hstep.
    unfold InMemoryStorage.DeleteTask in *.
    destruct (InMemoryStorage.tasks s !! taskID); cbn.
    + split; [set_solver|exact Hstep].
    + rewrite not_found_is_no_permission_error. cbn. split; [set_solver|done].
  - split; [set_solver|done].
  - split; [set_solver|done].
Qed.

Lemma InMemory_serve_no_server_error_sample :
  Status (serve {| useLocalStorage := true; bucketName := "" |}
            (PUT_tasks "a" (Some {| Upd_Text := None; Upd_Completed := Some true |}))
            sample_store).1
    ∈ [StatusOK; StatusCreated; StatusBadRequest; StatusNotFound]
  ∧ InMemoryStorage.reachable
      (serve {| useLocalStorage := true; bucketName := "" |}
         (PUT_tasks "a" (Some {| Upd_Text := None; Upd_Completed := Some true |}))
         sample_store).2.
Proof.
  apply InMemory_serve_no_server_error.
  apply InMemoryStorage.reach_Create, InMemoryStorage.reach_New.
Defined.

(** ** The task list of the page *)

Lemma filter_all {A} (P : A → Prop) `{∀ x, Decision (P x)} (l : list A) :
  Forall P l → filter P l = l.
Proof.
  induction 1 as [|x l Hx Hl IH]; [done|].
  rewrite filter_cons_True by done. by rewrite IH.
Qed.

Lemma fmap_fixed {A} (f : A → A) (l : list A) :
  Forall (λ x, f x = x) l → f <$> l = l.
Proof. intros Hl. rewrite <- (list_fmap_id l) at 2. by apply Forall_fmap_ext_1. Qed.

(** X16: the update callback of the page changes no id and no position:
    the list after it has the ids of the list before in the same order,
    every task of the updated id is the updated task, the tasks of other
    ids are as before, and a task whose id is not shown changes nothing. *)
Theorem handleTaskUpdate_keeps_ids (updatedTask : Frontend.Task)
    (prevTasks : list Frontend.Task) :
  Frontend.id <$> Frontend.handleTaskUpdate updatedTask prevTasks
    = Frontend.id <$> prevTasks
  ∧ (∀ i task, prevTasks !! i = Some task →
       Frontend.handleTaskUpdate updatedTask prevTasks !! i
       = Some (if decide (Frontend.id task = Frontend.id updatedTask)
               then updatedTask else task))
  ∧ (Frontend.id updatedTask ∉ (Frontend.id <$> prevTasks) →
       Frontend.handleTaskUpdate updatedTask prevTasks = prevTasks).
Proof.
  unfold Frontend.handleTaskUpdate. split; [|split].
  - rewrite <- list_fmap_compose. apply list_fmap_ext. intros i task _. cbn.
    by destruct (String.eqb_spec (Frontend.id task) (Frontend.id updatedTask)).
  - intros i task Hi. rewrite list_lookup_fmap, Hi. cbn.
    destruct (String.eqb_spec (Frontend.id task) (Frontend.id updatedTask));
      by case_decide.
  - intros Hnot. apply fmap_fixed, Forall_forall. intros task Hel.
    destruct (String.eqb_spec (Frontend.id task) (Frontend.id updatedTask)) as [Heq|];
      [|done].
    destruct Hnot. rewrite <- Heq. apply list_elem_of_fmap. by exists task.
Qed.

(** X17: the delete callback of the page leaves no task of the deleted id,
    and the two callbacks commute: deleting an id from the updated list
    gives the list that updating the list without the id gives. *)
Theorem handleTaskDelete_commutes (taskId : string) (updatedTask : Frontend.Task)
    (prevTasks : list Frontend.Task) :
  (taskId ∉ Frontend.id <$> Frontend.handleTaskDelete taskId prevTasks)
  ∧ Frontend.handleTaskDelete taskId (Frontend.handleTaskUpdate updatedTask prevTasks)
    = Frontend.handleTaskUpdate updatedTask (Frontend.handleTaskDelete taskId prevTasks).
Proof.
  unfold Frontend.handleTaskDelete, Frontend.handleTaskUpdate. split.
  - intros (task & -> & [Hne _]%list_elem_of_filter)%list_elem_of_fmap. done.
  - induction prevTasks as [|task l IH]; [done|].
    rewrite fmap_cons.
    destruct (decide (Frontend.id task = taskId)) as [Heq|Hne].
    + rewrite (filter_cons_False _ task) by (intros Hp; by apply Hp).
      rewrite filter_cons_False; [exact IH|].
      intros Hp. apply Hp.
      by destruct (String.eqb_spec (Frontend.id task) (Frontend.id updatedTask));
        [congruence|].
    + rewrite (filter_cons_True _ task) by done.
      rewrite fmap_cons, filter_cons_True; [by rewrite IH|].
      by destruct (String.eqb_spec (Frontend.id task) (Frontend.id updatedTask));
        [congruence|].
Qed.

Lemma InMemory_listing_without (m : gmap string Task) taskID existing :
  InMemoryStorage.keyed (InMemoryStorage.mk m) →
  m !! taskID = Some existing →
  snd <$> map_to_list m ≡ₚ existing :: (snd <$> map_to_list (delete taskID m))
  ∧ Forall (λ task, ID task ≠ taskID) (snd <$> map_to_list (delete taskID m)).
Proof.
  intros Hk Hget. split.
  - by rewrite <- (map_to_list_delete m taskID existing Hget).
  - apply Forall_forall.
    intros task [[k task'] [-> Hel%elem_of_map_to_list]]%list_elem_of_fmap. cbn.
    rewrite lookup_delete in Hel. case_decide; [done|].
    apply Hk in Hel. cbn in Hel. congruence.
Qed.

(** X18: the page stays in step with the in-memory server on a delete: if
    the page shows the tasks the server lists, in any order, and the
    server deletes an id, then the delete callback leaves the page with
    the tasks the server lists afterwards. *)
Theorem page_follows_delete (formatTime : Z → string) (s s' : InMemoryStorage.t)
    (taskID : string) (before after : list Task) (view : list Frontend.Task) :
  InMemoryStorage.reachable s →
  InMemoryStorage.ListTasks s = (Ok before, s) →
  view ≡ₚ received formatTime <$> before →
  InMemoryStorage.DeleteTask taskID s = (None, s') →
  InMemoryStorage.ListTasks s' = (Ok after, s') →
  Frontend.handleTaskDelete taskID view ≡ₚ received formatTime <$> after.
Proof.
  intros Hk%InMemoryFacts.reachable_keyed [= <-] Hview Hdel [= <-].
  destruct s as [m]. unfold InMemoryStorage.DeleteTask in Hdel. cbn in *.
  destruct (m !! taskID) as [existing|] eqn:Hget; [|discriminate].
  injection Hdel as <-. cbn.
  destruct (InMemory_listing_without m taskID existing Hk Hget) as [Hperm Hrest].
  unfold Frontend.handleTaskDelete. rewrite Hview, Hperm, fmap_cons.
  rewrite filter_cons_False.
  - rewrite filter_all; [done|].
    apply Forall_fmap. eapply Forall_impl; [exact Hrest|]. by intros task Hne.
  - intros Hp. apply Hp. cbn. by apply (Hk taskID).
Qed.

Lemma page_follows_delete_sample :
  Frontend.handleTaskDelete "a" (received (fun _ => "2024-01-01T00:00:00Z") <$> [sample_task])
  ≡ₚ received (fun _ => "2024-01-01T00:00:00Z") <$> [].
Proof.
  apply (page_follows_delete _ sample_store InMemoryStorage.New "a" [sample_task] []).
  - apply InMemoryStorage.reach_Create, InMemoryStorage.reach_New.
  - vm_compute. reflexivity.
  - reflexivity.
  - vm_compute. reflexivity.
  - vm_compute. reflexivity.
Defined.

(** X19: the page stays in step with the in-memory server on an update:
    if the page shows the tasks the server lists, in any order, and an
    update request is answered with 200 and the updated task, then the
    update callback with that task leaves the page with the tasks the
    server lists afterwards. *)
Theorem page_follows_update (formatTime : Z → string) (s s' : InMemoryStorage.t)
    (taskID : string) (req : TaskUpdateRequest) (updated : Task)
    (before after : list Task) (view : list Frontend.Task) :
  InMemoryStorage.reachable s →
  InMemoryStorage.ListTasks s = (Ok before, s) →
  view ≡ₚ received formatTime <$> before →
  updateTask taskID (Some req) s
    = (respond StatusOK "Task updated successfully" (OneTask updated), s') →
  InMemoryStorage.ListTasks s' = (Ok after, s') →
  Frontend.handleTaskUpdate (received formatTime updated) view
  ≡ₚ received formatTime <$> after.
Proof.
  intros Hk%InMemoryFacts.reachable_keyed [= <-] Hview Hrun [= <-].
  destruct (InMemoryStorage.tasks s !! taskID) as [existing|] eqn:Hget.
  - rewrite (InMemory_updateTask_ok s taskID req existing Hk Hget) in Hrun.
    injection Hrun as <- <-. destruct s as [m]. cbn in *.
    destruct (InMemory_listing_without m taskID existing Hk Hget) as [Hperm Hrest].
    rewrite <- (insert_delete_eq m).
    rewrite map_to_list_insert by apply lookup_delete_eq.
    unfold Frontend.handleTaskUpdate. rewrite Hview, Hperm, !fmap_cons. cbn.
    rewrite applyUpdate_ID, String.eqb_refl.
    rewrite fmap_fixed; [done|].
    apply Forall_fmap. eapply Forall_impl; [exact Hrest|].
    intros task Hne. cbn. rewrite (Hk _ _ Hget).
    by destruct (String.eqb_spec (ID task) taskID).
  - unfold updateTask in Hrun. cbn in Hrun.
    unfold InMemoryStorage.GetTask in Hrun. rewrite Hget in Hrun. cbn in Hrun.
    rewrite not_found_is_no_permission_error in Hrun. discriminate.
Qed.

Lemma page_follows_update_sample :
  Frontend.handleTaskUpdate
    (received (fun _ => "2024-01-01T00:00:00Z")
       {| ID := "a"; Text := "buy milk"; Completed := true; CreatedAt := 0 |})
    (received (fun _ => "2024-01-01T00:00:00Z") <$> [sample_task])
  ≡ₚ received (fun _ => "2024-01-01T00:00:00Z")
       <$> [{| ID := "a"; Text := "buy milk"; Completed := true; CreatedAt := 0 |}].
Proof.
  apply (page_follows_update _ sample_store
           (InMemoryStorage.mk
              {[ "a" := {| ID := "a"; Text := "buy milk"; Completed := true;
                           CreatedAt := 0 |} ]})
           "a" {| Upd_Text := None; Upd_Completed := Some true |} _ [sample_task]).
  - apply InMemoryStorage.reach_Create, InMemoryStorage.reach_New.
  - vm_compute. reflexivity.
  - reflexivity.
  - vm_compute. reflexivity.
  - vm_compute. reflexivity.
Defined.

(** ** Start-up *)

(** X20: when [init] does not stop the process, the port is never empty
    (it is the variable PORT, or 8080 when that is unset or empty); the
    backend is the empty in-memory store exactly when USE_LOCAL_STORAGE is
    the text "true"; otherwise the client was created, the backend is the
    bucket named by BUCKET_NAME and that name is not empty. *)
Theorem init_selects_backend (env : gmap string string) (newClient : result Client)
    (g : Globals) :
  init env newClient = Ok g →
  port g ≠ ""
  ∧ port g = (if String.eqb (Getenv env "PORT") "" then "8080" else Getenv env "PORT")
  ∧ match storageBackend g with
    | LocalBackend s =>
        Getenv env "USE_LOCAL_STORAGE" = "true"
        ∧ s = InMemoryStorage.New
        ∧ useLocalStorage (globalConfig g) = true
    | RemoteBackend s =>
        Getenv env "USE_LOCAL_STORAGE" ≠ "true"
        ∧ useLocalStorage (globalConfig g) = false
        ∧ bucketName (globalConfig g) = Getenv env "BUCKET_NAME"
        ∧ bucketName (globalConfig g) ≠ ""
        ∧ ∃ client, newClient = Ok client
            ∧ s = NewGCSStorage client (Getenv env "BUCKET_NAME")
    end.
Proof.
  unfold init. intros Hinit.
  assert ((if String.eqb (Getenv env "PORT") "" then "8080" else Getenv env "PORT") ≠ "")
    as Hport.
  { by destruct (String.eqb_spec (Getenv env "PORT") ""). }
  destruct (String.eqb_spec (Getenv env "USE_LOCAL_STORAGE") "true") as [Hlocal|Hremote].
  - injection Hinit as <-. cbn. done.
  - destruct (String.eqb_spec (Getenv env "BUCKET_NAME") "") as [|Hbucket];
      [discriminate|].
    destruct newClient as [client|err]; [|discriminate].
    injection Hinit as <-. cbn. repeat split; try done. by exists client.
Qed.

Lemma init_selects_backend_sample :
  port {| storageBackend := LocalBackend InMemoryStorage.New;
          globalConfig := {| useLocalStorage := true; bucketName := "" |};
          port := "8080" |} ≠ "".
Proof.
  apply (init_selects_backend {[ "USE_LOCAL_STORAGE" := "true" ]}
           (Err "no credentials")).
  vm_compute. reflexivity.
Defined.

(** X21: [init] stops the process exactly when the remote backend is
    selected and either BUCKET_NAME is unset or empty or the client cannot
    be created; with USE_LOCAL_STORAGE set to "true" it never stops,
    whatever the other variables and the client. *)
Theorem init_fails_iff (env : gmap string string) (newClient : result Client) :
  (∃ msg, init env newClient = Err msg)
  ↔ Getenv env "USE_LOCAL_STORAGE" ≠ "true"
    ∧ (Getenv env "BUCKET_NAME" = "" ∨ ∃ err, newClient = Err err).
Proof.
  unfold init.
  destruct (String.eqb_spec (Getenv env "USE_LOCAL_STORAGE") "true") as [Hlocal|Hremote].
  { split; [by intros [msg [=]] | by intros [? _]]. }
  destruct (String.eqb_spec (Getenv env "BUCKET_NAME") "") as [Hnone|Hbucket].
  { split; [by intros _; split; [|left] | by eexists]. }
  destruct newClient as [client|err].
  - split; [by intros [msg [=]]|].
    intros [_ [?|[err [=]]]]. done.
  - split; [|by eexists]. intros _. split; [done|]. right. by eexists.
Qed.

(** The variable is compared as it is: "TRUE" selects the remote backend. *)
Example init_local_needs_lowercase_true :
  init {[ "USE_LOCAL_STORAGE" := "TRUE" ]} (Err "no credentials")
  = Err "BUCKET_NAME environment variable is required when not using local storage".
Proof. vm_compute. reflexivity. Qed.

(** X22: the two status routes tell the backend that [init] selected: the
    health check and the bucket information name the in-memory storage
    exactly when the backend is the in-memory store, and otherwise name
    the bucket of BUCKET_NAME, the console link being the address of the
    storage browser followed by that name. *)
Theorem status_routes_tell_backend (env : gmap string string)
    (newClient : result Client) (g : Globals) (now : Z) :
  init env newClient = Ok g →
  match storageBackend g with
  | LocalBackend _ =>
      (serveGlobals g (GET_health now)).1
      = respond StatusOK "Backend is healthy"
          (Fields [("timestamp", VTime now); ("storage", VString "in-memory")])
      ∧ (serveGlobals g GET_bucket_info).1
        = respond StatusOK "Bucket information retrieved successfully"
            (Fields [("storage", VString "in-memory"); ("bucket", VNil);
                     ("gcsConsoleUrl", VNil); ("isLocal", VBool true)])
  | RemoteBackend s =>
      (serveGlobals g (GET_health now)).1
      = respond StatusOK "Backend is healthy"
          (Fields [("timestamp", VTime now); ("storage", VString "google-cloud-storage");
                   ("bucket", VString (GCSStorage.bucketName s))])
      ∧ (serveGlobals g GET_bucket_info).1
        = respond StatusOK "Bucket information retrieved successfully"
            (Fields [("storage", VString "google-cloud-storage");
                     ("bucket", VString (GCSStorage.bucketName s));
                     ("gcsConsoleUrl",
                      VString ("https://console.cloud.google.com/storage/browser/"
                               +:+ GCSStorage.bucketName s));
                     ("isLocal", VBool false)])
  end.
Proof.
  unfold init. intros Hinit.
  destruct (String.eqb_spec (Getenv env "USE_LOCAL_STORAGE") "true") as [Hlocal|Hremote].
  - injection Hinit as <-. by cbn.
  - destruct (String.eqb_spec (Getenv env "BUCKET_NAME") ""); [discriminate|].
    destruct newClient as [client|err]; [|discriminate].
    injection Hinit as <-. by cbn.
Qed.

Lemma status_routes_tell_backend_sample :
  (serveGlobals
     {| storageBackend :=
          RemoteBackend
            (NewGCSStorage {| bucketOf := fun _ => ∅; failures := fun _ => None |}
               "todo-bucket");
        globalConfig := {| useLocalStorage := false; bucketName := "todo-bucket" |};
        port := "9090" |} (GET_health 5)).1
  = respond StatusOK "Backend is healthy"
      (Fields [("timestamp", VTime 5); ("storage", VString "google-cloud-storage");
               ("bucket", VString "todo-bucket")])
  ∧ (serveGlobals
       {| storageBackend :=
            RemoteBackend
              (NewGCSStorage {| bucketOf := fun _ => ∅; failures := fun _ => None |}
                 "todo-bucket");
          globalConfig := {| useLocalStorage := false; bucketName := "todo-bucket" |};
          port := "9090" |} GET_bucket_info).1
    = respond StatusOK "Bucket information retrieved successfully"
        (Fields [("storage", VString "google-cloud-storage");
                 ("bucket", VString "todo-bucket");
                 ("gcsConsoleUrl",
                  VString ("https://console.cloud.google.com/storage/browser/"
                           +:+ "todo-bucket"));
                 ("isLocal", VBool false)]).
Proof.
  refine (status_routes_tell_backend
            {[ "BUCKET_NAME" := "todo-bucket"; "PORT" := "9090" ]}
            (Ok {| bucketOf := fun _ => ∅; failures := fun _ => None |})
            {| storageBackend :=
                 RemoteBackend
                   (NewGCSStorage {| bucketOf := fun _ => ∅; failures := fun _ => None |}
                      "todo-bucket");
               globalConfig := {| useLocalStorage := false; bucketName := "todo-bucket" |};
               port := "9090" |} 5 _).
  vm_compute. reflexivity.
Defined.

(** ** The client of the page against the in-memory server *)

(** X23: against the in-memory server in a state it can reach, the client
    never throws the permission error nor a bare HTTP error for a request
    whose body the server can parse: listing and creating with a text
    throw nothing, and updating or deleting an id throws "Task not found"
    when the id is not stored and nothing when it is. *)
Theorem client_errors_in_memory (s : InMemoryStorage.t) (taskID : string) :
  InMemoryStorage.reachable s →
  Api.rejectionOfList (Status (getTasks s).1) = None
  ∧ (∀ req newID now, Req_Text req ≠ "" →
       Api.rejectionOfList (Status (createTask (Some req) newID now s).1) = None)
  ∧ (∀ req,
       Api.rejectionOfItem (Status (updateTask taskID (Some req) s).1)
       = match InMemoryStorage.tasks s !! taskID with
         | Some _ => None
         | None => Some "Task not found"
         end)
  ∧ Api.rejectionOfItem (Status (deleteTask taskID s).1)
    = match InMemoryStorage.tasks s !! taskID with
      | Some _ => None
      | None => Some "Task not found"
      end.
Proof.
  intros Hk%InMemoryFacts.reachable_keyed. split; [done|]. split; [|split].
  - intros req newID now Htext. unfold createTask.
    by destruct (String.eqb_spec (Req_Text req) "").
  - intros req. destruct (InMemoryStorage.tasks s !! taskID) as [existing|] eqn:Hget.
    + by rewrite (InMemory_updateTask_ok s taskID req existing Hk Hget).
    + unfold updateTask; cbn. unfold InMemoryStorage.GetTask. rewrite Hget. cbn.
      by rewrite not_found_is_no_permission_error.
  - unfold deleteTask; cbn. unfold InMemoryStorage.DeleteTask.
    destruct (InMemoryStorage.tasks s !! taskID); [done|]. cbn.
    by rewrite not_found_is_no_permission_error.
Qed.

Lemma client_errors_in_memory_sample :
  Api.rejectionOfItem (Status (deleteTask "zz" sample_store).1) = Some "Task not found".
Proof.
  apply (client_errors_in_memory sample_store "zz").
  apply InMemoryStorage.reach_Create, InMemoryStorage.reach_New.
Defined.
